(** * The route splitter [scripts/split_route_gu_wan_scenes.py]

    The script loads one JSON route document, walks its [scenes] list and
    writes every scene that has a truthy [scene_id] to a file of its own.
    Its three functions ([load_route_json], [write_scene_file], [main]) are
    embedded below as state-passing functions over a [world]: a POSIX file
    tree, a working directory and the text printed so far.

    The script is glue over Python's [json], [os] and [open]; those library
    calls are embedded from CPython's behaviour on POSIX:
    - a Python [str] is a list of code points ([N]), a file holds bytes
      ([N] below 256), text files are opened with [encoding="utf-8"];
    - [json.load] is the decoder of [json.decoder]/[json.scanner];
      [json.dump(.., ensure_ascii=False, indent=4)] is the chunk generator
      of [json.encoder], each chunk written through the UTF-8 text layer;
    - the file system has directories and regular files only: no links,
      permissions, quotas or name-length limits.

    Two things are outside the embedding and end a run in [Unmodelled]:
    the value of a binary floating-point number (its truth value and its
    [repr]), and the [repr] of a list or a dict used as a scene id.  A float
    that is only read is kept as the literal it was read from.

    The interpreter is taken without its limits on resources: memory, the
    depth of recursion, and the number of digits of an int that is turned
    into text or read from it.  The [fuel] of the decoder is there for its
    definition to be accepted; it is shown to be enough for every text. *)

From Stdlib Require Import ZArith NArith List Ascii String Lia ZifyBool.
From Stdlib Require Import DecimalFacts DecimalPos DecimalN DecimalZ.
From stdpp Require Import base option list gmap.

Set Warnings "-register-all".
Local Open Scope N_scope.

(** ** Python strings *)

(** An ASCII literal as a Python [str]. *)
Definition py (x : string) : list N :=
  List.map N_of_ascii (list_ascii_of_string x).

(** The same with every apostrophe read as a double quote, to write JSON
    text: [js "{'a': 1}"] is the text [{"a": 1}]. *)
Definition js (x : string) : list N :=
  List.map (fun c => if c =? 39 then 34 else c) (py x).

Definition str_eqb (a b : list N) : bool := bool_decide (a = b).

(** [s.startswith(p)] *)
Fixpoint startswith (p s : list N) : bool :=
  match p, s with
  | [], _ => true
  | a :: p', b :: s' => (a =? b) && startswith p' s'
  | _ :: _, [] => false
  end.

(** ** Outcomes of a Python computation *)

Inductive exn :=
| FileNotFoundError
| NotADirectoryError
| IsADirectoryError
| FileExistsError
| ValueError
| UnicodeEncodeError
| UnicodeDecodeError
| JSONDecodeError
| AttributeError
| TypeError
| RecursionError.

Inductive outcome (A : Type) :=
| Return (a : A)
| Raise (e : exn)
| Unmodelled.
Arguments Return {A} a.
Arguments Raise {A} e.
Arguments Unmodelled {A}.

Definition obind {A B} (x : outcome A) (f : A -> outcome B) : outcome B :=
  match x with
  | Return a => f a
  | Raise e => Raise e
  | Unmodelled => Unmodelled
  end.

(** ** JSON values as Python objects *)

(** What [json.load] builds: [None], [bool], [int], [float], [str], [list]
    and [dict] with [str] keys.  A dict keeps its items in insertion order,
    each key once.  [VFloat lit] is the float [float(lit)]. *)
Inductive value :=
| VNone
| VBool (b : bool)
| VInt (z : Z)
| VFloat (lit : list N)
| VStr (s : list N)
| VList (items : list value)
| VDict (items : list (list N * value)).

(** [d.get(k)] on the items of a dict: [None] of Python is [None] here. *)
Fixpoint dict_lookup (k : list N) (d : list (list N * value)) : option value :=
  match d with
  | [] => None
  | (k', v) :: d' => if str_eqb k k' then Some v else dict_lookup k d'
  end.

(** [d[k] = v]: an existing key keeps its place. *)
Fixpoint dict_set (k : list N) (v : value) (d : list (list N * value))
  : list (list N * value) :=
  match d with
  | [] => [(k, v)]
  | (k', v') :: d' =>
      if str_eqb k k' then (k', v) :: d' else (k', v') :: dict_set k v d'
  end.

(** [dict(pairs)] *)
Definition dict_of_pairs (ps : list (list N * value)) : list (list N * value) :=
  fold_left (fun d kv => dict_set (fst kv) (snd kv) d) ps [].

(** [o.get(k)] and [o.get(k, default)]: only a dict has [get]. *)
Definition py_get (o : value) (k : list N) (dflt : value) : outcome value :=
  match o with
  | VDict d => Return (default dflt (dict_lookup k d))
  | _ => Raise AttributeError
  end.

(** The truth value of an object, as [not x] and [if x] test it.  A float is
    true unless it is zero, which needs its value: [None] here. *)
Definition truthy (v : value) : option bool :=
  match v with
  | VNone => Some false
  | VBool b => Some b
  | VInt z => Some (negb (Z.eqb z 0))
  | VFloat _ => None
  | VStr s => Some (negb (bool_decide (s = [])))
  | VList l => Some (negb (bool_decide (l = [])))
  | VDict d => Some (negb (bool_decide (d = [])))
  end.

(** [for x in o]: the items of a list, the keys of a dict, the characters of
    a str; nothing else that [json.load] builds is iterable. *)
Definition py_iter (o : value) : outcome (list value) :=
  match o with
  | VList l => Return l
  | VDict d => Return (List.map (fun kv => VStr (fst kv)) d)
  | VStr s => Return (List.map (fun c => VStr [c]) s)
  | _ => Raise TypeError
  end.

(** ** Decimal numerals *)

Definition digit_char (d : N) : N := 48 + d.

Fixpoint uint_chars (u : Decimal.uint) : list N :=
  match u with
  | Decimal.Nil => []
  | Decimal.D0 u => digit_char 0 :: uint_chars u
  | Decimal.D1 u => digit_char 1 :: uint_chars u
  | Decimal.D2 u => digit_char 2 :: uint_chars u
  | Decimal.D3 u => digit_char 3 :: uint_chars u
  | Decimal.D4 u => digit_char 4 :: uint_chars u
  | Decimal.D5 u => digit_char 5 :: uint_chars u
  | Decimal.D6 u => digit_char 6 :: uint_chars u
  | Decimal.D7 u => digit_char 7 :: uint_chars u
  | Decimal.D8 u => digit_char 8 :: uint_chars u
  | Decimal.D9 u => digit_char 9 :: uint_chars u
  end.

(** [int.__repr__] *)
Definition int_repr (z : Z) : list N :=
  match z with
  | Z0 => [48]
  | Zpos p => uint_chars (Pos.to_uint p)
  | Zneg p => 45 :: uint_chars (Pos.to_uint p)
  end.

Definition is_digit (c : N) : bool := (48 <=? c) && (c <=? 57).

(** The digit [c] put in front of the numeral [u]. *)
Definition push_digit (c : N) (u : Decimal.uint) : Decimal.uint :=
  match c - 48 with
  | 0 => Decimal.D0 u
  | 1 => Decimal.D1 u
  | 2 => Decimal.D2 u
  | 3 => Decimal.D3 u
  | 4 => Decimal.D4 u
  | 5 => Decimal.D5 u
  | 6 => Decimal.D6 u
  | 7 => Decimal.D7 u
  | 8 => Decimal.D8 u
  | _ => Decimal.D9 u
  end.

(** The longest run of digits at the head of [s], and what follows it. *)
Fixpoint span_digits (s : list N) : list N * list N :=
  match s with
  | c :: r =>
      if is_digit c then let '(ds, r') := span_digits r in (c :: ds, r')
      else ([], s)
  | [] => ([], [])
  end.

Definition uint_of_chars (ds : list N) : Decimal.uint :=
  fold_right push_digit Decimal.Nil ds.

(** [str(x)] for what an f-string formats with an empty format spec.  The
    [repr] of a float and of a container are outside the embedding. *)
Definition py_str (v : value) : option (list N) :=
  match v with
  | VNone => Some (py "None")
  | VBool true => Some (py "True")
  | VBool false => Some (py "False")
  | VInt z => Some (int_repr z)
  | VStr s => Some s
  | VFloat _ | VList _ | VDict _ => None
  end.

(** ** UTF-8, the encoding of every file the script opens *)

Definition is_surrogate (c : N) : bool := (0xD800 <=? c) && (c <=? 0xDFFF).

(** The bytes of one code point; [None] where the [strict] error handler
    raises (a surrogate, or a number that is no code point). *)
Definition utf8_encode_char (c : N) : option (list N) :=
  if c <? 0x80 then Some [c]
  else if c <? 0x800 then Some [0xC0 + c / 64; 0x80 + c mod 64]
  else if c <? 0x10000 then
    if is_surrogate c then None
    else Some [0xE0 + c / 4096; 0x80 + (c / 64) mod 64; 0x80 + c mod 64]
  else if c <? 0x110000 then
    Some [0xF0 + c / 262144; 0x80 + (c / 4096) mod 64;
          0x80 + (c / 64) mod 64; 0x80 + c mod 64]
  else None.

(** [s.encode("utf-8")] *)
Fixpoint utf8_encode (s : list N) : option (list N) :=
  match s with
  | [] => Some []
  | c :: s' =>
      match utf8_encode_char c, utf8_encode s' with
      | Some b, Some bs => Some (b ++ bs)
      | _, _ => None
      end
  end.

Definition is_cont (b : N) : bool := (0x80 <=? b) && (b <=? 0xBF).

(** [b.decode("utf-8")]: shortest forms only, no surrogates, nothing above
    U+10FFFF. *)
Fixpoint utf8_decode (bs : list N) : option (list N) :=
  match bs with
  | [] => Some []
  | b0 :: r0 =>
      if b0 <? 0x80 then cons b0 <$> utf8_decode r0
      else if b0 <? 0xC0 then None
      else if b0 <? 0xE0 then
        match r0 with
        | b1 :: r1 =>
            let c := (b0 - 0xC0) * 64 + (b1 - 0x80) in
            if is_cont b1 && (0x80 <=? c) then cons c <$> utf8_decode r1
            else None
        | _ => None
        end
      else if b0 <? 0xF0 then
        match r0 with
        | b1 :: b2 :: r2 =>
            let c := (b0 - 0xE0) * 4096 + (b1 - 0x80) * 64 + (b2 - 0x80) in
            if is_cont b1 && is_cont b2 && (0x800 <=? c) && negb (is_surrogate c)
            then cons c <$> utf8_decode r2
            else None
        | _ => None
        end
      else if b0 <? 0xF8 then
        match r0 with
        | b1 :: b2 :: b3 :: r3 =>
            let c := (b0 - 0xF0) * 262144 + (b1 - 0x80) * 4096
                     + (b2 - 0x80) * 64 + (b3 - 0x80) in
            if is_cont b1 && is_cont b2 && is_cont b3
               && (0x10000 <=? c) && (c <? 0x110000)
            then cons c <$> utf8_decode r3
            else None
        | _ => None
        end
      else None
  end.

(** Reading in text mode with the default [newline=None]: every line ending
    comes back as one line feed. *)
Fixpoint universal_newlines (s : list N) : list N :=
  match s with
  | [] => []
  | c :: r =>
      if c =? 13 then
        10 :: match r with
              | c' :: r' =>
                  if c' =? 10 then universal_newlines r'
                  else universal_newlines r
              | [] => []
              end
      else c :: universal_newlines r
  end.

(** ** [json.dump(obj, fp, ensure_ascii=False, indent=4)] *)

Definition hex_char (d : N) : N := if d <? 10 then 48 + d else 87 + d.

(** [ESCAPE_DCT] of [json.encoder]: the quote, the backslash and the control
    characters are escaped, every other character stands for itself. *)
Definition escape_char (c : N) : list N :=
  if c =? 34 then [92; 34]
  else if c =? 92 then [92; 92]
  else if c =? 8 then [92; 98]
  else if c =? 12 then [92; 102]
  else if c =? 10 then [92; 110]
  else if c =? 13 then [92; 114]
  else if c =? 9 then [92; 116]
  else if c <? 32 then [92; 117; 48; 48; hex_char (c / 16); hex_char (c mod 16)]
  else [c].

(** [encode_basestring], the string encoder chosen by [ensure_ascii=False]. *)
Definition encode_basestring (s : list N) : list N :=
  34 :: flat_map escape_char s ++ [34].

(** One argument of [fp.write]: a text, or the [repr] of a float. *)
Inductive chunk :=
| Text (s : list N)
| FloatRepr (lit : list N).

(** ["\n" + " " * 4 * level] *)
Definition newline_indent (lvl : nat) : list N :=
  10 :: repeat 32 (4 * lvl)%nat.

(** The chunk of a value that is no container. *)
Definition scalar (v : value) : option chunk :=
  match v with
  | VStr s => Some (Text (encode_basestring s))
  | VNone => Some (Text (py "null"))
  | VBool true => Some (Text (py "true"))
  | VBool false => Some (Text (py "false"))
  | VInt z => Some (Text (int_repr z))
  | VFloat lit => Some (FloatRepr lit)
  | VList _ | VDict _ => None
  end.

(** [buf + text] *)
Definition with_buf (buf : list N) (c : chunk) : chunk :=
  match c with
  | Text s => Text (buf ++ s)
  | FloatRepr lit => FloatRepr lit
  end.

(** The loop of [_iterencode_list]: [buf] is the text that goes before the
    next item, written with it when the item is no container. *)
Fixpoint list_chunks (enc : value -> list chunk) (sep buf : list N)
  (l : list value) : list chunk :=
  match l with
  | [] => []
  | x :: l' =>
      match scalar x with
      | Some c => [with_buf buf c]
      | None => Text buf :: enc x
      end ++ list_chunks enc sep sep l'
  end.

(** The loop of [_iterencode_dict]. *)
Fixpoint dict_chunks (enc : value -> list chunk) (sep : list N) (first : bool)
  (d : list (list N * value)) : list chunk :=
  match d with
  | [] => []
  | (k, x) :: d' =>
      (if first then [] else [Text sep])
      ++ Text (encode_basestring k) :: Text (py ": ")
      :: match scalar x with
         | Some c => [c]
         | None => enc x
         end
      ++ dict_chunks enc sep false d'
  end.

(** [_iterencode], [_iterencode_list] and [_iterencode_dict] of
    [json.encoder._make_iterencode] with [_indent = "    "],
    [_item_separator = ","] and [_key_separator = ": "]: the chunks in the
    order they are yielded. *)
Fixpoint iterencode (lvl : nat) (v : value) {struct v} : list chunk :=
  match v with
  | VList l =>
      match l with
      | [] => [Text (py "[]")]
      | _ =>
          list_chunks (iterencode (S lvl)) (44 :: newline_indent (S lvl))
            (91 :: newline_indent (S lvl)) l
          ++ [Text (newline_indent lvl); Text [93]]
      end
  | VDict d =>
      match d with
      | [] => [Text (py "{}")]
      | _ =>
          Text [123] :: Text (newline_indent (S lvl))
          :: dict_chunks (iterencode (S lvl)) (44 :: newline_indent (S lvl))
               true d
          ++ [Text (newline_indent lvl); Text [125]]
      end
  | _ => match scalar v with Some c => [c] | None => [] end
  end.

(** ** [json.load] *)

Definition is_ws (c : N) : bool :=
  (c =? 32) || (c =? 9) || (c =? 10) || (c =? 13).

Fixpoint skip_ws (s : list N) : list N :=
  match s with
  | c :: r => if is_ws c then skip_ws r else s
  | [] => []
  end.

(** What follows the character [c] at the head of [s], if it is there. *)
Definition peek (c : N) (s : list N) : option (list N) :=
  match s with
  | x :: r => if x =? c then Some r else None
  | [] => None
  end.

Definition hex_val (c : N) : option N :=
  if is_digit c then Some (c - 48)
  else if (97 <=? c) && (c <=? 102) then Some (c - 87)
  else if (65 <=? c) && (c <=? 70) then Some (c - 55)
  else None.

Definition hex4 (a b c d : N) : option N :=
  match hex_val a, hex_val b, hex_val c, hex_val d with
  | Some a, Some b, Some c, Some d => Some (((a * 16 + b) * 16 + c) * 16 + d)
  | _, _, _, _ => None
  end.

Definition is_high_surrogate (c : N) : bool := (0xD800 <=? c) && (c <=? 0xDBFF).
Definition is_low_surrogate (c : N) : bool := (0xDC00 <=? c) && (c <=? 0xDFFF).
Definition join_surrogates (hi lo : N) : N :=
  0x10000 + (hi - 0xD800) * 1024 + (lo - 0xDC00).

(** A backslash escape of one character. *)
Definition unescape (c : N) : option N :=
  if (c =? 34) || (c =? 92) || (c =? 47) then Some c
  else if c =? 98 then Some 8
  else if c =? 102 then Some 12
  else if c =? 110 then Some 10
  else if c =? 114 then Some 13
  else if c =? 116 then Some 9
  else None.

(** [scanstring] in strict mode, from just after the opening quote: the
    string and what follows its closing quote; [None] where it raises.  An
    escaped high surrogate joins an escaped low surrogate that follows it;
    any other escaped surrogate stays as it is. *)
Fixpoint scanstring (s : list N) : option (list N * list N) :=
  match s with
  | [] => None
  | c :: r =>
      if c =? 34 then Some ([], r)
      else if c =? 92 then
        match r with
        | [] => None
        | e :: r1 =>
            if e =? 117 then
              match r1 with
              | a :: b :: c :: d :: r2 =>
                  match hex4 a b c d with
                  | None => None
                  | Some u =>
                      let alone :=
                        match scanstring r2 with
                        | Some (k, t) => Some (u :: k, t)
                        | None => None
                        end in
                      if is_high_surrogate u then
                        match r2 with
                        | x1 :: x2 :: a' :: b' :: c' :: d' :: r3 =>
                            match hex4 a' b' c' d' with
                            | Some u' =>
                                if (x1 =? 92) && (x2 =? 117)
                                   && is_low_surrogate u'
                                then
                                  match scanstring r3 with
                                  | Some (k, t) =>
                                      Some (join_surrogates u u' :: k, t)
                                  | None => None
                                  end
                                else alone
                            | None => alone
                            end
                        | _ => alone
                        end
                      else alone
                  end
              | _ => None
              end
            else
              match unescape e, scanstring r1 with
              | Some x, Some (k, t) => Some (x :: k, t)
              | _, _ => None
              end
        end
      else if c <? 32 then None
      else
        match scanstring r with
        | Some (k, t) => Some (c :: k, t)
        | None => None
        end
  end.

(** The number at the head of [s], as [NUMBER_RE] matches it: an optional
    minus; a zero, or a digit that is not zero and then digits; optionally a
    dot and one digit or more; optionally [e] or [E], an optional sign and
    one digit or more.  With a fraction or an exponent it is a float,
    otherwise an int. *)
Definition match_number (s : list N) : option (value * list N) :=
  let '(sign, s1) := match peek 45 s with
                     | Some r => ([45], r)
                     | None => ([], s)
                     end in
  match s1 with
  | [] => None
  | c :: r =>
      let int_part :=
        if c =? 48 then Some ([48], r)
        else if is_digit c then
          let '(ds, r') := span_digits r in Some (c :: ds, r')
        else None in
      match int_part with
      | None => None
      | Some (ds, r1) =>
          let '(frac, r2) :=
            match peek 46 r1 with
            | Some r' =>
                match span_digits r' with
                | ([], _) => ([], r1)
                | (fs, r'') => (46 :: fs, r'')
                end
            | None => ([], r1)
            end in
          let '(ex, r3) :=
            match r2 with
            | e :: r' =>
                if (e =? 101) || (e =? 69) then
                  let '(sg, t) :=
                    match r' with
                    | g :: t => if (g =? 43) || (g =? 45) then ([g], t) else ([], r')
                    | [] => ([], r')
                    end in
                  match span_digits t with
                  | ([], _) => ([], r2)
                  | (es, t') => (e :: sg ++ es, t')
                  end
                else ([], r2)
            | [] => ([], r2)
            end in
          match frac, ex with
          | [], [] =>
              let n := Z.of_N (N.of_uint (uint_of_chars ds)) in
              Some (VInt (match sign with [] => n | _ => Z.opp n end), r3)
          | _, _ => Some (VFloat (sign ++ ds ++ frac ++ ex), r3)
          end
      end
  end.

(** The literals [null], [true], [false], [NaN], [Infinity], [-Infinity]
    and the numbers. *)
Definition scan_literal (s : list N) : option (value * list N) :=
  if startswith (py "null") s then Some (VNone, drop 4 s)
  else if startswith (py "true") s then Some (VBool true, drop 4 s)
  else if startswith (py "false") s then Some (VBool false, drop 5 s)
  else if startswith (py "NaN") s then Some (VFloat (py "NaN"), drop 3 s)
  else if startswith (py "Infinity") s then Some (VFloat (py "Infinity"), drop 8 s)
  else if startswith (py "-Infinity") s then Some (VFloat (py "-Infinity"), drop 9 s)
  else match_number s.

(** [scan_once], [JSONArray] and [JSONObject].  Every call spends one unit
    of [fuel]; [loads] below gives two units for every character, which is
    more than a text can use. *)
Fixpoint scan_once (fuel : nat) (s : list N) : outcome (value * list N) :=
  match fuel with
  | O => Raise RecursionError
  | S n =>
      match s with
      | [] => Raise JSONDecodeError
      | c :: r =>
          if c =? 34 then
            match scanstring r with
            | Some (k, r') => Return (VStr k, r')
            | None => Raise JSONDecodeError
            end
          else if c =? 123 then
            match peek 125 (skip_ws r) with
            | Some r' => Return (VDict [], r')
            | None =>
                obind (parse_members n (skip_ws r))
                  (fun '(ps, r') => Return (VDict (dict_of_pairs ps), r'))
            end
          else if c =? 91 then
            match peek 93 (skip_ws r) with
            | Some r' => Return (VList [], r')
            | None =>
                obind (parse_items n (skip_ws r))
                  (fun '(vs, r') => Return (VList vs, r'))
            end
          else
            match scan_literal s with
            | Some x => Return x
            | None => Raise JSONDecodeError
            end
      end
  end
with parse_items (fuel : nat) (s : list N) : outcome (list value * list N) :=
  match fuel with
  | O => Raise RecursionError
  | S n =>
      obind (scan_once n s) (fun '(v, r) =>
        match peek 93 (skip_ws r) with
        | Some r' => Return ([v], r')
        | None =>
            match peek 44 (skip_ws r) with
            | Some r' =>
                obind (parse_items n (skip_ws r'))
                  (fun '(vs, t) => Return (v :: vs, t))
            | None => Raise JSONDecodeError
            end
        end)
  end
with parse_members (fuel : nat) (s : list N)
  : outcome (list (list N * value) * list N) :=
  match fuel with
  | O => Raise RecursionError
  | S n =>
      match peek 34 s with
      | None => Raise JSONDecodeError
      | Some r =>
          match scanstring r with
          | None => Raise JSONDecodeError
          | Some (k, r1) =>
              match peek 58 (skip_ws r1) with
              | None => Raise JSONDecodeError
              | Some r2 =>
                  obind (scan_once n (skip_ws r2)) (fun '(v, r3) =>
                    match peek 125 (skip_ws r3) with
                    | Some r4 => Return ([(k, v)], r4)
                    | None =>
                        match peek 44 (skip_ws r3) with
                        | Some r4 =>
                            obind (parse_members n (skip_ws r4))
                              (fun '(ps, r5) => Return ((k, v) :: ps, r5))
                        | None => Raise JSONDecodeError
                        end
                    end)
              end
          end
      end
  end.

(** [json.loads] of a [str]: no byte order mark, one value, then only
    whitespace. *)
Definition loads (s : list N) : outcome value :=
  if startswith [0xFEFF] s then Raise JSONDecodeError
  else
    obind (scan_once (2 * length s + 2) (skip_ws s)) (fun '(v, r) =>
      match skip_ws r with
      | [] => Return v
      | _ => Raise JSONDecodeError
      end).

(** ** [os.path] on POSIX *)

(** [os.path.join(a, b)]; with more parts, [join(a, b, c)] is
    [join(join(a, b), c)]. *)
Definition path_join (a b : list N) : list N :=
  if startswith [47] b then b
  else if bool_decide (a = []) || bool_decide (last a = Some 47) then a ++ b
  else a ++ 47 :: b.

Fixpoint drop_while (f : N -> bool) (s : list N) : list N :=
  match s with
  | c :: r => if f c then drop_while f r else s
  | [] => []
  end.

(** [os.path.dirname(p)]: [p] up to its last slash, then without trailing
    slashes unless it is made of slashes only. *)
Definition dirname (p : list N) : list N :=
  let head := rev (drop_while (fun c => negb (c =? 47)) (rev p)) in
  match drop_while (N.eqb 47) (rev head) with
  | [] => head
  | h => rev h
  end.

(** ** The world: a file tree, a working directory, standard output *)

Inductive node :=
| Dir
| File (data : list N).

(** A file is named by the components of its absolute path, each the bytes
    of a file name; the root is the empty list and is a directory. *)
Record world := World {
  tree : gmap (list (list N)) node;
  cwd : list (list N);
  stdout : list N
}.

Definition fs_lookup (t : gmap (list (list N)) node) (p : list (list N))
  : option node :=
  match p with
  | [] => Some Dir
  | _ => t !! p
  end.

(** [os.fsencode]: UTF-8 with the [surrogateescape] handler, which turns
    U+DC80..U+DCFF into the bytes 0x80..0xFF. *)
Fixpoint fsencode (s : list N) : option (list N) :=
  match s with
  | [] => Some []
  | c :: s' =>
      match (if (0xDC80 <=? c) && (c <=? 0xDCFF) then Some [c - 0xDC00]
             else utf8_encode_char c), fsencode s' with
      | Some b, Some bs => Some (b ++ bs)
      | _, _ => None
      end
  end.

(** A path as the system call gets it: encoded, with no null byte. *)
Definition os_path (s : list N) : outcome (list N) :=
  match fsencode s with
  | None => Raise UnicodeEncodeError
  | Some b => if bool_decide (0 ∈ b) then Raise ValueError else Return b
  end.

(** [b.split(b"/")] *)
Fixpoint split_sep (b : list N) : list (list N) :=
  match b with
  | [] => [[]]
  | c :: r =>
      if c =? 47 then [] :: split_sep r
      else match split_sep r with
           | h :: t => (c :: h) :: t
           | [] => [[c]]
           end
  end.

Definition parent (p : list (list N)) : list (list N) := removelast p.

(** Path resolution through directories: every name on the way has to be
    a directory. *)
Fixpoint walk_dirs (t : gmap (list (list N)) node) (cur : list (list N))
  (cs : list (list N)) : outcome (list (list N)) :=
  match cs with
  | [] => Return cur
  | c :: cs' =>
      if str_eqb c [] || str_eqb c [46] then walk_dirs t cur cs'
      else if str_eqb c [46; 46] then walk_dirs t (parent cur) cs'
      else
        match fs_lookup t (cur ++ [c]) with
        | Some Dir => walk_dirs t (cur ++ [c]) cs'
        | Some (File _) => Raise NotADirectoryError
        | None => Raise FileNotFoundError
        end
  end.

Definition start_dir (cwd : list (list N)) (b : list N) : list (list N) :=
  if startswith [47] b then [] else cwd.

(** The file a path names, which need not exist: the directories before
    its last component have to. *)
Definition resolve (t : gmap (list (list N)) node) (cwd : list (list N))
  (b : list N) : outcome (list (list N)) :=
  match b with
  | [] => Raise FileNotFoundError
  | _ =>
      let cs := split_sep b in
      obind (walk_dirs t (start_dir cwd b) (removelast cs)) (fun d =>
        let c := List.last cs [] in
        if str_eqb c [] || str_eqb c [46] then Return d
        else if str_eqb c [46; 46] then Return (parent d)
        else Return (d ++ [c]))
  end.

(** The directories [os.makedirs(.., exist_ok=True)] goes through, made
    where they are missing; what was made before an error stays. *)
Fixpoint make_dirs (t : gmap (list (list N)) node) (cur : list (list N))
  (cs : list (list N)) : gmap (list (list N)) node * outcome unit :=
  match cs with
  | [] => (t, Return tt)
  | c :: cs' =>
      if str_eqb c [] || str_eqb c [46] then make_dirs t cur cs'
      else if str_eqb c [46; 46] then make_dirs t (parent cur) cs'
      else
        match fs_lookup t (cur ++ [c]) with
        | Some Dir => make_dirs t (cur ++ [c]) cs'
        | None => make_dirs (<[cur ++ [c] := Dir]> t) (cur ++ [c]) cs'
        | Some (File _) =>
            (t, if forallb (str_eqb []) cs' then Raise FileExistsError
                else Raise NotADirectoryError)
        end
  end.

(** ** The monad of the script: a world passed along, and an outcome *)

Definition M (A : Type) : Type := world -> world * outcome A.

#[export] Instance M_ret : MRet M := fun A a w => (w, Return a).
#[export] Instance M_bind : MBind M := fun A B f m w =>
  match m w with
  | (w', Return a) => f a w'
  | (w', Raise e) => (w', Raise e)
  | (w', Unmodelled) => (w', Unmodelled)
  end.

Definition lift {A} (x : outcome A) : M A := fun w => (w, x).

(** What is not embedded ends the run. *)
Definition known {A} (x : option A) : M A :=
  fun w => (w, match x with Some a => Return a | None => Unmodelled end).

(** [os.makedirs(name, exist_ok=True)] *)
Definition makedirs (name : list N) : M unit := fun w =>
  match os_path name with
  | Return [] => (w, Raise FileNotFoundError)
  | Return b =>
      let '(t, r) := make_dirs (tree w) (start_dir (cwd w) b) (split_sep b) in
      (World t (cwd w) (stdout w), r)
  | Raise e => (w, Raise e)
  | Unmodelled => (w, Unmodelled)
  end.

(** [open(path, "r", encoding="utf-8")] and [f.read()] up to the decoding:
    the bytes of the file. *)
Definition open_r (path : list N) : M (list N) := fun w =>
  (w, obind (os_path path) (fun b =>
        obind (resolve (tree w) (cwd w) b) (fun q =>
          match fs_lookup (tree w) q with
          | Some (File data) => Return data
          | Some Dir => Raise IsADirectoryError
          | None => Raise FileNotFoundError
          end))).

(** [b.rstrip(b"/")] *)
Definition strip_slashes (b : list N) : list N :=
  rev (drop_while (N.eqb 47) (rev b)).

(** [open(path, "w", encoding="utf-8")]: the file is created or emptied;
    the handle is the file it names.  A path that ends in a slash names a
    directory, there or not, and no file is made. *)
Definition open_w (path : list N) : M (list (list N)) := fun w =>
  match os_path path with
  | Return b =>
      if bool_decide (last b = Some 47) then
        match strip_slashes b with
        | [] => (w, Raise IsADirectoryError)
        | b' =>
            match resolve (tree w) (cwd w) b' with
            | Return _ => (w, Raise IsADirectoryError)
            | Raise e => (w, Raise e)
            | Unmodelled => (w, Unmodelled)
            end
        end
      else
        match resolve (tree w) (cwd w) b with
        | Return q =>
            match fs_lookup (tree w) q with
            | Some Dir => (w, Raise IsADirectoryError)
            | _ =>
                (World (<[q := File []]> (tree w)) (cwd w) (stdout w), Return q)
            end
        | Raise e => (w, Raise e)
        | Unmodelled => (w, Unmodelled)
        end
  | Raise e => (w, Raise e)
  | Unmodelled => (w, Unmodelled)
  end.

Definition file_data (t : gmap (list (list N)) node) (q : list (list N))
  : list N :=
  match t !! q with
  | Some (File data) => data
  | _ => []
  end.

(** [fp.write(chunk)] on a file opened for writing: the chunk is encoded
    and its bytes are added; a chunk that cannot be encoded adds nothing. *)
Definition fp_write (fp : list (list N)) (c : chunk) : M unit := fun w =>
  match c with
  | FloatRepr _ => (w, Unmodelled)
  | Text s =>
      match utf8_encode s with
      | None => (w, Raise UnicodeEncodeError)
      | Some bs =>
          (World (<[fp := File (file_data (tree w) fp ++ bs)]> (tree w))
             (cwd w) (stdout w), Return tt)
      end
  end.

Fixpoint write_chunks (fp : list (list N)) (cs : list chunk) : M unit :=
  match cs with
  | [] => mret tt
  | c :: cs' => fp_write fp c ≫= fun _ => write_chunks fp cs'
  end.

(** [json.dump(obj, fp, ensure_ascii=False, indent=4)] *)
Definition json_dump (obj : value) (fp : list (list N)) : M unit :=
  write_chunks fp (iterencode 0 obj).

(** [print(text)] *)
Definition print (text : list N) : M unit := fun w =>
  (World (tree w) (cwd w) (stdout w ++ text ++ [10]), Return tt).

(** ** The script *)

Definition load_route_json (route_path : list N) : M value :=
  data ← open_r route_path;
  text ← lift (match utf8_decode data with
               | Some s => Return (universal_newlines s)
               | None => Raise UnicodeDecodeError
               end);
  lift (loads text).

Definition write_scene_file (output_dir : list N) (scene : value) : M (list N) :=
  scene_id ← lift (py_get scene (py "scene_id") VNone);
  b ← known (truthy scene_id);
  if negb b then mret []
  else
    makedirs output_dir ≫= fun _ =>
    name ← known (py_str scene_id);
    let out_path := path_join output_dir (name ++ py ".json") in
    out ← open_w out_path;
    json_dump scene out ≫= fun _ =>
    fp_write out (Text [10]) ≫= fun _ =>
    mret out_path.

(** The loop of [main]: [written_paths] grows by every path that is not
    empty. *)
Fixpoint write_scenes (output_dir : list N) (scenes : list value)
  (written_paths : list (list N)) : M (list (list N)) :=
  match scenes with
  | [] => mret written_paths
  | scene :: rest =>
      p ← write_scene_file output_dir scene;
      write_scenes output_dir rest
        (if bool_decide (p = []) then written_paths else written_paths ++ [p])
  end.

(** [main], with [script] for [os.path.abspath(__file__)]. *)
Definition main (script : list N) : M unit :=
  let project_root := dirname (dirname script) in
  let route_path :=
    path_join (path_join project_root (py "data")) (py "route_gu_wan.json") in
  let output_dir :=
    path_join (path_join project_root (py "data")) (py "route_gu_wan_scenes") in
  route_data ← load_route_json route_path;
  scenes ← lift (py_get route_data (py "scenes") (VList []));
  items ← lift (py_iter scenes);
  written_paths ← write_scenes output_dir items [];
  print (py "written " ++ int_repr (Z.of_nat (length written_paths))
         ++ py " scene files to " ++ output_dir).

(** ** Notions of the specification *)

(** The scene id the writer tests: [scene.get("scene_id")]. *)
Definition scene_id (d : list (list N * value)) : value :=
  default VNone (dict_lookup (py "scene_id") d).

(** A scene that is written: a dict whose scene id is true. *)
Definition has_id (scene : value) : bool :=
  match scene with
  | VDict d => bool_decide (truthy (scene_id d) = Some true)
  | _ => false
  end.

(** The items of a JSON array or object laid out one per line: each on a
    new line at the indentation [nl], a comma after each but the last. *)
Definition lay_out (nl : list N) (items : list (list N)) : list N :=
  match items with
  | [] => []
  | t :: ts => nl ++ t ++ flat_map (fun t' => 44 :: nl ++ t') ts
  end.

(** The JSON text of a value, pretty-printed with four spaces for each level
    of nesting, strings between double quotes with only the quote, the
    backslash and the control characters escaped.  A float stands as the
    literal it was read from; no statement below is about one. *)
Fixpoint json_pretty (lvl : nat) (v : value) : list N :=
  match v with
  | VNone => py "null"
  | VBool true => py "true"
  | VBool false => py "false"
  | VInt z => int_repr z
  | VFloat lit => lit
  | VStr s => encode_basestring s
  | VList l =>
      match l with
      | [] => py "[]"
      | _ =>
          91 :: lay_out (newline_indent (S lvl))
                  (List.map (json_pretty (S lvl)) l)
          ++ newline_indent lvl ++ [93]
      end
  | VDict d =>
      match d with
      | [] => py "{}"
      | _ =>
          123 :: lay_out (newline_indent (S lvl))
                   (List.map (fun kv => encode_basestring (fst kv) ++ py ": "
                                        ++ json_pretty (S lvl) (snd kv)) d)
          ++ newline_indent lvl ++ [125]
      end
  end.

(** The content of a scene file: the JSON text and one line feed. *)
Definition scene_text (scene : value) : list N := json_pretty 0 scene ++ [10].

(** No float anywhere in the value. *)
Fixpoint no_float (v : value) : bool :=
  match v with
  | VFloat _ => false
  | VList l => forallb no_float l
  | VDict d => forallb (fun kv => no_float (snd kv)) d
  | _ => true
  end.





(** The texts of chunks that are all texts. *)
Fixpoint chunk_texts (cs : list chunk) : option (list N) :=
  match cs with
  | [] => Some []
  | Text s :: cs' => app s <$> chunk_texts cs'
  | FloatRepr _ :: _ => None
  end.

(** Files written one after the other: a later one replaces an earlier one
    of the same name. *)
Definition apply_writes (ws : list (list (list N) * list N))
  (t : gmap (list (list N)) node) : gmap (list (list N)) node :=
  fold_left (fun t x => <[fst x := File (snd x)]> t) ws t.

(** The regular files of a tree. *)
Definition is_file (n : node) : bool :=
  match n with
  | File _ => true
  | Dir => false
  end.

(** The path [write_scene_file] derives for a scene: the file name is the
    scene id as [str] gives it, then [.json]. *)
Definition out_path (output_dir : list N) (scene : value) : list N :=
  match scene with
  | VDict d =>
      match py_str (scene_id d) with
      | Some name => path_join output_dir (name ++ py ".json")
      | None => []
      end
  | _ => []
  end.

(** The two paths [main] works with. *)
Definition route_path_of (script : list N) : list N :=
  path_join (path_join (dirname (dirname script)) (py "data"))
    (py "route_gu_wan.json").

Definition output_dir_of (script : list N) : list N :=
  path_join (path_join (dirname (dirname script)) (py "data"))
    (py "route_gu_wan_scenes").

(** The line [main] prints for [n] written paths. *)
Definition summary_line (n : nat) (output_dir : list N) : list N :=
  py "written " ++ int_repr (Z.of_nat n) ++ py " scene files to " ++ output_dir.

(** The file a path names in a world, if the path resolves. *)
Definition file_of (w : world) (p : list N) : outcome (list (list N)) :=
  obind (os_path p) (resolve (tree w) (cwd w)).

(** The writes of a run that ended in the world [w']: for each scene with
    an id, in list order, the file its path names and the bytes of its
    text. *)
Definition writes_of (w' : world) (output_dir : list N) (scenes : list value)
  (ws : list (list (list N) * list N)) : Prop :=
  Forall2 (fun scene x =>
             file_of w' (out_path output_dir scene) = Return (fst x)
             /\ utf8_encode (scene_text scene) = Some (snd x))
    (List.filter has_id scenes) ws.


(** The scenes [main] goes through: what iterating over
    [route_data.get("scenes", [])] gives. *)
Definition route_scenes (route : value) : outcome (list value) :=
  obind (py_get route (py "scenes") (VList [])) py_iter.

#[export] Instance node_eq_dec : EqDecision node.
Proof. solve_decision. Defined.


(** A project to run the script in: the script in [/proj/scripts], and in
    [/proj/data] a route file with the given text. *)
Definition demo_script : list N :=
  py "/proj/scripts/split_route_gu_wan_scenes.py".

Definition demo_world (route_text : list N) : world :=
  World (<[[py "proj"; py "data"; py "route_gu_wan.json"]
           := File (default [] (utf8_encode route_text))]>
           (<[[py "proj"; py "data"] := Dir]> (<[[py "proj"] := Dir]> ∅)))
    [] [].

(** What a call of [write_scene_file] that writes does, step by step: the
    directory is made, the path is derived and resolved to the file [q],
    which gets the bytes of the scene text. *)
Definition written (output_dir : list N) (scene : value) (w : world)
  (p : list N) (q : list (list N)) (w' : world) : Prop :=
  exists d name t1 b bs,
    scene = VDict d /\ truthy (scene_id d) = Some true
    /\ py_str (scene_id d) = Some name
    /\ p = path_join output_dir (name ++ py ".json")
    /\ makedirs output_dir w = (World t1 (cwd w) (stdout w), Return tt)
    /\ os_path p = Return b /\ last b <> Some 47
    /\ resolve t1 (cwd w) b = Return q /\ fs_lookup t1 q <> Some Dir
    /\ chunk_texts (iterencode 0 scene) = Some (json_pretty 0 scene)
    /\ utf8_encode (scene_text scene) = Some bs
    /\ w' = World (<[q := File bs]> t1) (cwd w) (stdout w).

(** Every entry of [t] is in [t'], a directory as a directory and a file as
    a file (its content may differ). *)
Definition shape_le (t t' : gmap (list (list N)) node) : Prop :=
  forall p n, t !! p = Some n -> is_file <$> t' !! p = Some (is_file n).

(** JSON text, after the grammar of RFC 8259: white space is made of
    spaces, tabs, line feeds and carriage returns. *)
Definition json_ws (s : list N) : Prop :=
  Forall (fun c => c = 32 \/ c = 9 \/ c = 10 \/ c = 13) s.

Definition json_digits (s : list N) : Prop :=
  s <> [] /\ Forall (fun c => 48 <= c <= 57) s.

Definition json_hex (c : N) : Prop :=
  48 <= c <= 57 \/ 65 <= c <= 70 \/ 97 <= c <= 102.

(** A number: an optional minus; a zero, or digits that do not start with
    one; an optional fraction; an optional exponent. *)
Definition json_number (s : list N) : Prop :=
  exists sign int frac ex,
    s = sign ++ int ++ frac ++ ex
    /\ (sign = [] \/ sign = [45])
    /\ json_digits int /\ (int = [48] \/ head int <> Some 48)
    /\ (frac = [] \/ exists ds, frac = 46 :: ds /\ json_digits ds)
    /\ (ex = []
        \/ exists e sg ds, ex = e :: sg ++ ds /\ (e = 101 \/ e = 69)
             /\ (sg = [] \/ sg = [43] \/ sg = [45]) /\ json_digits ds).

(** What stands between the quotes of a string: characters from U+0020 on
    other than the quote and the backslash, and the escapes. *)
Inductive json_chars : list N -> Prop :=
| chars_nil : json_chars []
| chars_plain (c : N) (s : list N) :
    32 <= c -> c <> 34 -> c <> 92 -> json_chars s -> json_chars (c :: s)
| chars_escape (c : N) (s : list N) :
    c ∈ [34; 92; 47; 98; 102; 110; 114; 116] -> json_chars s ->
    json_chars (92 :: c :: s)
| chars_hex (a b c d : N) (s : list N) :
    json_hex a -> json_hex b -> json_hex c -> json_hex d -> json_chars s ->
    json_chars (92 :: 117 :: a :: b :: c :: d :: s).

(** The values.  With [ext], [NaN], [Infinity] and [-Infinity] are values
    too: they are not in RFC 8259, Python's decoder takes them. *)
Inductive json_value (ext : bool) : list N -> Prop :=
| value_null : json_value ext (py "null")
| value_true : json_value ext (py "true")
| value_false : json_value ext (py "false")
| value_nan : ext = true -> json_value ext (py "NaN")
| value_inf : ext = true -> json_value ext (py "Infinity")
| value_neg_inf : ext = true -> json_value ext (py "-Infinity")
| value_number (s : list N) : json_number s -> json_value ext s
| value_string (s : list N) : json_chars s -> json_value ext (34 :: s ++ [34])
| value_array_empty (ws : list N) :
    json_ws ws -> json_value ext (91 :: ws ++ [93])
| value_array (es : list N) :
    json_elements ext es -> json_value ext (91 :: es ++ [93])
| value_object_empty (ws : list N) :
    json_ws ws -> json_value ext (123 :: ws ++ [125])
| value_object (ms : list N) :
    json_members ext ms -> json_value ext (123 :: ms ++ [125])
with json_elements (ext : bool) : list N -> Prop :=
| elements_one (ws1 v ws2 : list N) :
    json_ws ws1 -> json_value ext v -> json_ws ws2 ->
    json_elements ext (ws1 ++ v ++ ws2)
| elements_more (ws1 v ws2 es : list N) :
    json_ws ws1 -> json_value ext v -> json_ws ws2 -> json_elements ext es ->
    json_elements ext (ws1 ++ v ++ ws2 ++ 44 :: es)
with json_members (ext : bool) : list N -> Prop :=
| members_one (ws1 k ws2 ws3 v ws4 : list N) :
    json_ws ws1 -> json_chars k -> json_ws ws2 -> json_ws ws3 ->
    json_value ext v -> json_ws ws4 ->
    json_members ext (ws1 ++ 34 :: k ++ 34 :: ws2 ++ 58 :: ws3 ++ v ++ ws4)
| members_more (ws1 k ws2 ws3 v ws4 ms : list N) :
    json_ws ws1 -> json_chars k -> json_ws ws2 -> json_ws ws3 ->
    json_value ext v -> json_ws ws4 -> json_members ext ms ->
    json_members ext
      (ws1 ++ 34 :: k ++ 34 :: ws2 ++ 58 :: ws3 ++ v ++ ws4 ++ 44 :: ms).

Scheme json_value_mut := Minimality for json_value Sort Prop
  with json_elements_mut := Minimality for json_elements Sort Prop
  with json_members_mut := Minimality for json_members Sort Prop.

Combined Scheme json_mutind
  from json_value_mut, json_elements_mut, json_members_mut.

(** A JSON text is one value with white space around it. *)
Definition json_text (ext : bool) (s : list N) : Prop :=
  exists ws1 v ws2,
    s = ws1 ++ v ++ ws2 /\ json_ws ws1 /\ json_value ext v /\ json_ws ws2.


(** [t] is [s] with line ends replaced by line feeds; text mode reads [s]
    as one such [t]. *)
Inductive newlines_of : list N -> list N -> Prop :=
| newlines_nil : newlines_of [] []
| newlines_char (c : N) (s t : list N) :
    c <> 13 -> newlines_of s t -> newlines_of (c :: s) (c :: t)
| newlines_cr (s t : list N) :
    newlines_of s t -> newlines_of (13 :: s) (10 :: t)
| newlines_crlf (s t : list N) :
    newlines_of s t -> newlines_of (13 :: 10 :: s) (10 :: t).

(** The same world seen from another working directory. *)
Definition with_cwd (c : list (list N)) (w : world) : world :=
  World (tree w) c (stdout w).

(** A computation that does not look at the working directory: run from
    another one, it does the same to the tree and the output, and ends the
    same. *)
Definition cwd_free {A : Type} (m : M A) : Prop :=
  forall c w, m (with_cwd c w) = (with_cwd c (fst (m w)), snd (m w)).


(** A scene that can be written in the directory [qd] of the tree [t]: a
    dict that is skipped, or one whose id gives a file name without a
    slash that the system takes, where no directory has that name, with
    no float in it and no string that UTF-8 cannot encode. *)
Definition writable (t : gmap (list (list N)) node) (qd : list (list N))
  (scene : value) : Prop :=
  exists d, scene = VDict d
    /\ (truthy (scene_id d) = Some false
        \/ exists name bn bs,
             truthy (scene_id d) = Some true
             /\ py_str (scene_id d) = Some name
             /\ (47 ∉ name)
             /\ os_path (name ++ py ".json") = Return bn
             /\ t !! (qd ++ [bn]) <> Some Dir
             /\ no_float scene = true
             /\ utf8_encode (scene_text scene) = Some bs).

Arguments py : simpl never.
Arguments js : simpl never.
Arguments encode_basestring : simpl never.
Arguments newline_indent : simpl never.
Arguments int_repr : simpl never.

(** * Facts about the script *)

Section Monad.
Context {A B : Type}.

Lemma bind_unfold (m : M A) (f : A -> M B) (w : world) :
  (m ≫= f) w =
  match m w with
  | (w', Return a) => f a w'
  | (w', Raise e) => (w', Raise e)
  | (w', Unmodelled) => (w', Unmodelled)
  end.
Proof. reflexivity. Qed.

Lemma bind_return (m : M A) (f : A -> M B) (w w' : world) (a : A) :
  m w = (w', Return a) -> (m ≫= f) w = f a w'.
Proof. intros H. rewrite bind_unfold, H. reflexivity. Qed.


(** A computation that returns went through both of its halves. *)
Lemma bind_inv (m : M A) (f : A -> M B) (w w2 : world) (b : B) :
  (m ≫= f) w = (w2, Return b) ->
  exists w1 a, m w = (w1, Return a) /\ f a w1 = (w2, Return b).
Proof.
  rewrite bind_unfold. destruct (m w) as [w1 [a | e |]]; intros H;
    try discriminate. eauto.
Qed.
End Monad.

(** C2: a scene whose [scene_id] is absent or empty (or false in any other
    way: [null], [false], [0], an empty list or dict) makes
    [write_scene_file] return the empty string, raise nothing and leave the
    world as it was: no directory is made, no file is written. *)
Theorem skipped_scene_no_effect (output_dir : list N)
  (d : list (list N * value)) (w : world) :
  truthy (scene_id d) = Some false ->
  write_scene_file output_dir (VDict d) w = (w, Return []).
Proof.
  intros Hid. unfold write_scene_file. cbn [py_get].
  fold (scene_id d).
  rewrite (bind_return _ _ w w (scene_id d)) by reflexivity.
  rewrite (bind_return _ _ w w false) by (unfold known; now rewrite Hid).
  reflexivity.
Qed.

Lemma skipped_scene_no_effect_witness :
  write_scene_file (py "out") (VDict [(py "text", VStr (py "no id"))])
    (World ∅ [] []) = (World ∅ [] [], Return [])
  /\ write_scene_file (py "out") (VDict [(py "scene_id", VStr [])])
    (World ∅ [] []) = (World ∅ [] [], Return []).
Proof.
  split; apply skipped_scene_no_effect; reflexivity.
Defined.

(** ** Encoding and chunks *)

Lemma utf8_encode_app (a b : list N) :
  utf8_encode (a ++ b) =
  match utf8_encode a, utf8_encode b with
  | Some x, Some y => Some (x ++ y)
  | _, _ => None
  end.
Proof.
  induction a as [|c a IH]; simpl.
  - destruct (utf8_encode b); reflexivity.
  - rewrite IH. destruct (utf8_encode_char c), (utf8_encode a), (utf8_encode b);
      simpl; try reflexivity. now rewrite app_assoc.
Qed.


Lemma file_data_insert (t : gmap (list (list N)) node) (q : list (list N))
  (d : list N) : file_data (<[q := File d]> t) q = d.
Proof. unfold file_data. now rewrite lookup_insert_eq. Qed.


Lemma write_chunks_text (fp : list (list N)) (cs : list chunk) :
  forall (w : world) (d0 txt bs : list N),
  tree w !! fp = Some (File d0) ->
  chunk_texts cs = Some txt -> utf8_encode txt = Some bs ->
  write_chunks fp cs w
  = (World (<[fp := File (d0 ++ bs)]> (tree w)) (cwd w) (stdout w), Return tt).
Proof.
  induction cs as [|c cs IH]; intros w d0 txt bs Hfp Ht Hb.
  - injection Ht as <-. injection Hb as <-. cbn.
    rewrite app_nil_r, insert_id by assumption. now destruct w.
  - destruct c as [s | lit]; [|discriminate]. cbn in Ht.
    destruct (chunk_texts cs) as [txt'|] eqn:E; [|discriminate].
    injection Ht as <-. rewrite utf8_encode_app in Hb.
    destruct (utf8_encode s) as [b1|] eqn:E1; [|discriminate].
    destruct (utf8_encode txt') as [b2|] eqn:E2; [|discriminate].
    injection Hb as <-. cbn [write_chunks].
    erewrite bind_return; [|unfold fp_write; rewrite E1; reflexivity].
    erewrite IH; eauto; [|apply lookup_insert_eq]. cbn.
    unfold file_data. rewrite Hfp, insert_insert_eq. now rewrite app_assoc.
Qed.

(** ** The chunks of [json.dump] and the pretty-printed text *)

(** Induction on values, with the hypothesis on every item of a list and
    of a dict. *)
Lemma value_ind' (P : value -> Prop) :
  P VNone -> (forall b, P (VBool b)) -> (forall z, P (VInt z)) ->
  (forall lit, P (VFloat lit)) -> (forall s, P (VStr s)) ->
  (forall l, Forall P l -> P (VList l)) ->
  (forall d, Forall (fun kv => P (snd kv)) d -> P (VDict d)) ->
  forall v, P v.
Proof.
  intros HN HB HI HF HS HL HD. fix IH 1. intros [| b | z | lit | s | l | d].
  - exact HN.
  - apply HB.
  - apply HI.
  - apply HF.
  - apply HS.
  - apply HL. induction l as [|x l IHl]; constructor; [apply IH | exact IHl].
  - apply HD. induction d as [|[k x] d IHd]; constructor;
      [apply IH | exact IHd].
Qed.

Lemma chunk_texts_app (a b : list chunk) :
  chunk_texts (a ++ b) =
  match chunk_texts a, chunk_texts b with
  | Some x, Some y => Some (x ++ y)
  | _, _ => None
  end.
Proof.
  induction a as [|[s | lit] a IH]; simpl.
  - destruct (chunk_texts b); reflexivity.
  - rewrite IH. destruct (chunk_texts a), (chunk_texts b); simpl;
      try reflexivity. now rewrite app_assoc.
  - reflexivity.
Qed.

(** The chunk of a scalar is its text. *)
Lemma scalar_text (v : value) (c : chunk) (lvl : nat) :
  scalar v = Some c ->
  (no_float v = true /\ c = Text (json_pretty lvl v))
  \/ (no_float v = false /\ exists lit, c = FloatRepr lit).
Proof.
  destruct v as [| [] | z | lit | s | l | d]; intros [= <-]; eauto.
Qed.

(** The texts of an item and those after it. *)
Definition item_text (enc : value -> list chunk) (x : value) : option (list N) :=
  chunk_texts (match scalar x with Some c => [c] | None => enc x end).

Lemma list_chunks_texts (enc : value -> list chunk) (pretty : value -> list N)
  (sep : list N) (l : list value) :
  Forall (fun x => item_text enc x
                   = if no_float x then Some (pretty x) else None) l ->
  forall buf,
  chunk_texts (list_chunks enc sep buf l) =
  if forallb no_float l then
    Some (match l with
          | [] => []
          | x :: l' => buf ++ pretty x
                       ++ flat_map (fun t => sep ++ t) (List.map pretty l')
          end)
  else None.
Proof.
  induction 1 as [|x l Hx _ IH]; intros buf; [reflexivity|].
  cbn [list_chunks forallb]. rewrite chunk_texts_app, IH.
  unfold item_text in Hx.
  destruct (scalar x) as [[t | lit]|] eqn:Es; cbn in Hx |- *.
  - destruct (no_float x); [|discriminate]. injection Hx as Hx.
    rewrite app_nil_r in Hx. subst t. cbn.
    destruct (forallb no_float l); [|reflexivity]. f_equal.
    destruct l; cbn; now rewrite <- ?app_assoc, ?app_nil_r.
  - destruct (no_float x); [discriminate|]. reflexivity.
  - rewrite Hx. destruct (no_float x); [|reflexivity]. cbn.
    destruct (forallb no_float l); [|reflexivity]. f_equal.
    destruct l; cbn; now rewrite <- ?app_assoc, ?app_nil_r.
Qed.

Lemma dict_chunks_texts (enc : value -> list chunk) (pretty : value -> list N)
  (sep : list N) (d : list (list N * value)) :
  Forall (fun kv => item_text enc (snd kv)
                    = if no_float (snd kv) then Some (pretty (snd kv)) else None) d ->
  forall first,
  chunk_texts (dict_chunks enc sep first d) =
  if forallb (fun kv => no_float (snd kv)) d then
    Some (match d with
          | [] => []
          | kv :: d' =>
              (if first then [] else sep)
              ++ (encode_basestring (fst kv) ++ py ": " ++ pretty (snd kv))
              ++ flat_map (fun t => sep ++ t)
                   (List.map (fun kv => encode_basestring (fst kv) ++ py ": "
                                        ++ pretty (snd kv)) d')
          end)
  else None.
Proof.
  induction 1 as [|[k x] d Hx _ IH]; intros first; [reflexivity|].
  cbn [dict_chunks forallb fst snd] in *.
  rewrite chunk_texts_app.
  change (Text (encode_basestring k) :: Text (py ": ")
          :: match scalar x with Some c => [c] | None => enc x end
          ++ dict_chunks enc sep false d)
    with ([Text (encode_basestring k); Text (py ": ")]
          ++ match scalar x with Some c => [c] | None => enc x end
          ++ dict_chunks enc sep false d).
  rewrite !chunk_texts_app, IH. unfold item_text in Hx. rewrite Hx.
  destruct (no_float x); cbn;
    [|destruct first; reflexivity].
  destruct (forallb (fun kv => no_float (snd kv)) d);
    [|destruct first; reflexivity].
  destruct first; cbn; f_equal; destruct d as [|[k' x'] d];
    cbn; rewrite <- ?app_assoc, ?app_nil_r; reflexivity.
Qed.

(** The chunks [json.dump] writes spell the pretty-printed text, unless the
    value holds a float. *)
Lemma iterencode_pretty (v : value) :
  forall lvl,
  chunk_texts (iterencode lvl v)
  = if no_float v then Some (json_pretty lvl v) else None.
Proof.
  induction v as [| [] | z | lit | s | l IH | d IH] using value_ind';
    intros lvl; try (cbn; now rewrite ?app_nil_r).
  - destruct l as [|x l]; [reflexivity|].
    cbn [iterencode json_pretty no_float].
    rewrite chunk_texts_app.
    rewrite (list_chunks_texts _ (json_pretty (S lvl))).
    + destruct (forallb no_float (x :: l)); [|reflexivity]. cbn.
      rewrite <- !app_assoc. reflexivity.
    + eapply Forall_impl; [exact IH|]. intros y Hy. unfold item_text.
      destruct (scalar y) as [c|] eqn:Es; [|apply Hy].
      destruct (scalar_text _ _ (S lvl) Es) as [[-> ->] | [-> [lit ->]]];
        cbn; now rewrite ?app_nil_r.
  - destruct d as [|kv d]; [reflexivity|].
    cbn [iterencode json_pretty no_float].
    change (Text [123] :: Text (newline_indent (S lvl)) :: ?x)
      with ([Text [123]; Text (newline_indent (S lvl))] ++ x).
    rewrite !chunk_texts_app.
    rewrite (dict_chunks_texts _ (json_pretty (S lvl))).
    + destruct (forallb _ (kv :: d)); [|reflexivity]. cbn.
      rewrite <- !app_assoc. reflexivity.
    + eapply Forall_impl; [exact IH|]. intros [k y] Hy. unfold item_text.
      cbn [snd] in *.
      destruct (scalar y) as [c|] eqn:Es; [|apply Hy].
      destruct (scalar_text _ _ (S lvl) Es) as [[-> ->] | [-> [lit ->]]];
        cbn; now rewrite ?app_nil_r.
Qed.

(** ** One call of [write_scene_file] *)

Lemma makedirs_inv (name : list N) (w w1 : world) (r : outcome unit) :
  makedirs name w = (w1, r) -> cwd w1 = cwd w /\ stdout w1 = stdout w.
Proof.
  unfold makedirs. destruct (os_path name) as [[|c b] | e |];
    try (intros [= <- <-]; now split).
  destruct (make_dirs _ _ _) as [t r']. intros [= <- <-]. now split.
Qed.

Lemma open_w_inv (path : list N) (w w' : world) (q : list (list N)) :
  open_w path w = (w', Return q) ->
  exists b, os_path path = Return b /\ last b <> Some 47
    /\ resolve (tree w) (cwd w) b = Return q
    /\ fs_lookup (tree w) q <> Some Dir
    /\ w' = World (<[q := File []]> (tree w)) (cwd w) (stdout w).
Proof.
  unfold open_w. destruct (os_path path) as [b | e |]; try discriminate.
  destruct (bool_decide (last b = Some 47)) eqn:Hl.
  - destruct (strip_slashes b); [discriminate|].
    destruct (resolve _ _ _); discriminate.
  - apply bool_decide_eq_false_1 in Hl.
    destruct (resolve _ _ b) as [q' | e |] eqn:Er; try discriminate.
    destruct (fs_lookup (tree w) q') as [[|data]|] eqn:El; try discriminate;
      intros [= <- <-]; exists b; repeat split; auto; congruence.
Qed.

Lemma open_w_return (path b : list N) (w : world) (q : list (list N)) :
  os_path path = Return b -> last b <> Some 47 ->
  resolve (tree w) (cwd w) b = Return q ->
  fs_lookup (tree w) q <> Some Dir ->
  open_w path w
  = (World (<[q := File []]> (tree w)) (cwd w) (stdout w), Return q).
Proof.
  intros Hb Hl Hr Hq. unfold open_w. rewrite Hb.
  rewrite bool_decide_eq_false_2 by assumption. rewrite Hr.
  destruct (fs_lookup (tree w) q) as [[|data]|]; congruence.
Qed.


(** And a scene that can be written is written. *)
Lemma write_scene_file_written (output_dir : list N) (scene : value)
  (w w' : world) (p : list N) (q : list (list N)) :
  written output_dir scene w p q w' ->
  write_scene_file output_dir scene w = (w', Return p).
Proof.
  intros (d & name & t1 & b & bs & -> & Ht & Hn & -> & Hm & Hb & Hl & Hr & Hd
          & Hc & He & ->).
  unfold write_scene_file. cbn [py_get]. fold (scene_id d).
  rewrite (bind_return _ _ w w (scene_id d)) by reflexivity.
  rewrite (bind_return _ _ w w true) by (unfold known; now rewrite Ht).
  cbn [negb]. erewrite bind_return by exact Hm.
  erewrite bind_return by (unfold known; now rewrite Hn).
  erewrite bind_return by (eapply open_w_return; eauto).
  unfold scene_text in He. rewrite utf8_encode_app in He.
  destruct (utf8_encode (json_pretty 0 (VDict d))) as [bs0|] eqn:E0;
    [|discriminate]. cbn in He. injection He as <-.
  erewrite bind_return;
    [|unfold json_dump; eapply write_chunks_text; eauto; apply lookup_insert_eq].
  erewrite bind_return; [|reflexivity].
  cbn. rewrite file_data_insert, !insert_insert_eq. reflexivity.
Qed.

(** ** The file tree *)

Lemma fs_lookup_snoc (t : gmap (list (list N)) node) (cur : list (list N))
  (c : list N) : fs_lookup t (cur ++ [c]) = t !! (cur ++ [c]).
Proof. destruct cur; reflexivity. Qed.

Lemma shape_le_refl (t : gmap (list (list N)) node) : shape_le t t.
Proof. intros p n H. now rewrite H. Qed.

Lemma shape_le_trans (t1 t2 t3 : gmap (list (list N)) node) :
  shape_le t1 t2 -> shape_le t2 t3 -> shape_le t1 t3.
Proof.
  intros H12 H23 p n H. apply H12 in H.
  destruct (t2 !! p) as [n2|] eqn:E; [|discriminate].
  injection H as <-. now apply H23.
Qed.

Lemma shape_le_dir (t t' : gmap (list (list N)) node) (p : list (list N)) :
  shape_le t t' -> fs_lookup t p = Some Dir -> fs_lookup t' p = Some Dir.
Proof.
  intros H. destruct p as [|c p]; [reflexivity|]. cbn. intros E.
  apply H in E. destruct (t' !! (c :: p)) as [[|d]|]; now try discriminate.
Qed.

(** Writing a file where there is no directory keeps the shape. *)
Lemma shape_le_insert_file (t : gmap (list (list N)) node)
  (q : list (list N)) (bs : list N) :
  t !! q <> Some Dir -> shape_le t (<[q := File bs]> t).
Proof.
  intros Hq p n H. destruct (decide (q = p)) as [<- | Hne].
  - rewrite lookup_insert_eq. destruct n; [congruence | reflexivity].
  - rewrite lookup_insert_ne by assumption. now rewrite H.
Qed.

(** Path resolution only looks at directories: where they stay, it gives
    the same file. *)
Lemma walk_dirs_shape_le (t t' : gmap (list (list N)) node)
  (cs : list (list N)) :
  shape_le t t' ->
  forall cur d, walk_dirs t cur cs = Return d -> walk_dirs t' cur cs = Return d.
Proof.
  intros Hle. induction cs as [|c cs IH]; intros cur d; cbn; [auto|].
  destruct (str_eqb c [] || str_eqb c [46]); [apply IH|].
  destruct (str_eqb c [46; 46]); [apply IH|].
  destruct (fs_lookup t (cur ++ [c])) as [[|data]|] eqn:E; try discriminate.
  rewrite (shape_le_dir _ _ _ Hle E). apply IH.
Qed.

Lemma resolve_shape_le (t t' : gmap (list (list N)) node)
  (cwd : list (list N)) (b : list N) (q : list (list N)) :
  shape_le t t' -> resolve t cwd b = Return q -> resolve t' cwd b = Return q.
Proof.
  intros Hle. unfold resolve. destruct b as [|c b]; [discriminate|].
  destruct (walk_dirs t _ _) as [d | e |] eqn:E; try discriminate.
  now rewrite (walk_dirs_shape_le _ _ _ Hle _ _ E).
Qed.

(** [make_dirs] keeps every entry and adds directories only. *)
Lemma make_dirs_keeps (cs : list (list N)) :
  forall t cur t1 r, make_dirs t cur cs = (t1, r) ->
  forall p n, t !! p = Some n -> t1 !! p = Some n.
Proof.
  induction cs as [|c cs IH]; intros t cur t1 r; cbn.
  - now intros [= <- <-].
  - destruct (str_eqb c [] || str_eqb c [46]); [apply IH|].
    destruct (str_eqb c [46; 46]); [apply IH|].
    rewrite fs_lookup_snoc.
    destruct (t !! (cur ++ [c])) as [[|data]|] eqn:E.
    + apply IH.
    + now intros [= <- <-].
    + intros H p n Hp. eapply IH; [exact H|].
      rewrite lookup_insert_ne; [assumption | congruence].
Qed.

Lemma make_dirs_adds_dirs (cs : list (list N)) :
  forall t cur t1 r, make_dirs t cur cs = (t1, r) ->
  forall p n, t1 !! p = Some n -> t !! p = Some n \/ (t !! p = None /\ n = Dir).
Proof.
  induction cs as [|c cs IH]; intros t cur t1 r; cbn.
  - intros [= <- <-]. auto.
  - destruct (str_eqb c [] || str_eqb c [46]); [apply IH|].
    destruct (str_eqb c [46; 46]); [apply IH|].
    rewrite fs_lookup_snoc.
    destruct (t !! (cur ++ [c])) as [[|data]|] eqn:E.
    + apply IH.
    + intros [= <- <-]. auto.
    + intros H p n Hp. destruct (IH _ _ _ _ H p n Hp) as [H1 | [H1 ->]].
      * destruct (decide (cur ++ [c] = p)) as [<- | Hne].
        -- rewrite lookup_insert_eq in H1. injection H1 as <-. auto.
        -- rewrite lookup_insert_ne in H1 by assumption. auto.
      * destruct (decide (cur ++ [c] = p)) as [<- | Hne].
        -- rewrite lookup_insert_eq in H1. discriminate.
        -- rewrite lookup_insert_ne in H1 by assumption. auto.
Qed.

Lemma make_dirs_shape_le (cs : list (list N)) (t : gmap (list (list N)) node)
  (cur : list (list N)) (t1 : gmap (list (list N)) node) (r : outcome unit) :
  make_dirs t cur cs = (t1, r) -> shape_le t t1.
Proof.
  intros H p n Hp. now rewrite (make_dirs_keeps _ _ _ _ _ H _ _ Hp).
Qed.





(** ** The loop of [main] *)

Lemma skip_return (output_dir : list N) (d : list (list N * value))
  (w : world) :
  truthy (scene_id d) = Some false ->
  write_scene_file output_dir (VDict d) w = (w, Return []).
Proof.
  intros Hid. unfold write_scene_file. cbn [py_get].
  fold (scene_id d).
  rewrite (bind_return _ _ w w (scene_id d)) by reflexivity.
  rewrite (bind_return _ _ w w false) by (unfold known; now rewrite Hid).
  reflexivity.
Qed.







Lemma apply_writes_cons (x : list (list N) * list N)
  (ws : list (list (list N) * list N)) (t : gmap (list (list N)) node) :
  apply_writes (x :: ws) t = apply_writes ws (<[fst x := File (snd x)]> t).
Proof. reflexivity. Qed.




Lemma file_of_shape_le (w w' : world) (p : list N) (q : list (list N)) :
  cwd w' = cwd w -> shape_le (tree w) (tree w') ->
  file_of w p = Return q -> file_of w' p = Return q.
Proof.
  unfold file_of. intros Hc Hle. destruct (os_path p) as [b | e |];
    try discriminate. cbn. rewrite Hc. now apply resolve_shape_le.
Qed.




(** ** Running the loop again *)




(** ** [main] *)

Lemma open_r_frame (path : list N) (w w' : world) (r : outcome (list N)) :
  open_r path w = (w', r) -> w' = w.
Proof. unfold open_r. now intros [= <- _]. Qed.

(** Loading reads and changes nothing. *)
Lemma load_route_json_frame (route_path : list N) (w w' : world)
  (r : outcome value) :
  load_route_json route_path w = (w', r) -> w' = w.
Proof.
  unfold load_route_json. rewrite bind_unfold.
  destruct (open_r route_path w) as [w1 r1] eqn:E1.
  apply open_r_frame in E1 as ->.
  destruct r1 as [data | e |]; try (now intros [= <- _]).
  rewrite bind_unfold. unfold lift.
  destruct (utf8_decode data); now intros [= <- _].
Qed.


Lemma main_return (script : list N) (w w1 : world) (route : value)
  (scenes : list value) (ps : list (list N)) :
  load_route_json (route_path_of script) w = (w, Return route) ->
  route_scenes route = Return scenes ->
  write_scenes (output_dir_of script) scenes [] w = (w1, Return ps) ->
  main script w
  = (World (tree w1) (cwd w1)
       (stdout w1 ++ summary_line (length ps) (output_dir_of script) ++ [10]),
     Return tt).
Proof.
  intros Hl Hs Hw. unfold main.
  erewrite bind_return by exact Hl.
  unfold route_scenes in Hs.
  destruct (py_get route (py "scenes") (VList [])) as [sc | e |] eqn:E;
    try discriminate. cbn in Hs.
  erewrite bind_return by reflexivity.
  erewrite bind_return by (unfold lift; now rewrite Hs).
  erewrite bind_return by exact Hw. reflexivity.
Qed.


Lemma writes_of_stdout (w : world) (out : list N) (output_dir : list N)
  (scenes : list value) (ws : list (list (list N) * list N)) :
  writes_of w output_dir scenes ws ->
  writes_of (World (tree w) (cwd w) out) output_dir scenes ws.
Proof. exact id. Qed.





(** C7: a route document that is an object without a [scenes] key is read
    as one with no scenes: [main] completes, prints the line with the count
    0 and writes nothing. *)
Theorem no_scenes_key_writes_nothing (script : list N) (w : world)
  (d : list (list N * value)) :
  load_route_json (route_path_of script) w = (w, Return (VDict d)) ->
  dict_lookup (py "scenes") d = None ->
  main script w
  = (World (tree w) (cwd w)
       (stdout w ++ summary_line 0 (output_dir_of script) ++ [10]),
     Return tt).
Proof.
  intros Hl Hd.
  apply (main_return script w w (VDict d) [] []); [exact Hl | | reflexivity].
  unfold route_scenes. cbn [py_get]. now rewrite Hd.
Qed.

Lemma no_scenes_key_writes_nothing_witness :
  let w := demo_world (js "{'title': 'gu wan', 'chapters': [1, 2]}") in
  main demo_script w
  = (World (tree w) [] (py "written 0 scene files to /proj/data/route_gu_wan_scenes" ++ [10]),
     Return tt).
Proof.
  intros w.
  exact (no_scenes_key_writes_nothing demo_script w
           [(py "title", VStr (py "gu wan"));
            (py "chapters", VList [VInt 1; VInt 2])]
           ltac:(vm_compute; reflexivity) ltac:(vm_compute; reflexivity)).
Defined.

(** C8: on the input [{"scenes": []}], [main] completes with the count 0 and
    leaves the file tree as it was: no file is written and the output
    directory is not made, since only [write_scene_file] makes it. *)
Theorem empty_scenes_no_directory (script : list N) (w : world)
  (data : list N) :
  open_r (route_path_of script) w = (w, Return data) ->
  utf8_decode data = Some (js "{'scenes': []}") ->
  main script w
  = (World (tree w) (cwd w)
       (stdout w ++ summary_line 0 (output_dir_of script) ++ [10]),
     Return tt).
Proof.
  intros Hr Hd.
  apply (main_return script w w (VDict [(py "scenes", VList [])]) [] []);
    [| reflexivity | reflexivity].
  unfold load_route_json. erewrite bind_return by exact Hr.
  rewrite Hd. reflexivity.
Qed.

Lemma empty_scenes_no_directory_witness :
  let w := demo_world (js "{'scenes': []}") in
  main demo_script w
  = (World (tree w) [] (py "written 0 scene files to /proj/data/route_gu_wan_scenes" ++ [10]),
     Return tt)
  /\ file_of w (output_dir_of demo_script)
     = Return [py "proj"; py "data"; py "route_gu_wan_scenes"]
  /\ tree w !! [py "proj"; py "data"; py "route_gu_wan_scenes"] = None.
Proof.
  intros w. split; [|split; vm_compute; reflexivity].
  exact (empty_scenes_no_directory demo_script w _
           ltac:(vm_compute; reflexivity) ltac:(vm_compute; reflexivity)).
Defined.







(** ** Reading back what was written *)







(** ** Decoding the text of a value *)




(** A positive number is written without a leading zero. *)
Lemma pos_repr_head (p : positive) :
  exists c ds, uint_chars (Pos.to_uint p) = c :: ds
    /\ is_digit c = true /\ c <> 48.
Proof.
  assert (E : Pos.to_uint p = Decimal.unorm (Pos.to_uint p)).
  { change (Pos.to_uint p) with (N.to_uint (Npos p)) at 1.
    rewrite <- DecimalPos.Unsigned.of_to. apply DecimalPos.Unsigned.to_of. }
  pose proof (DecimalPos.Unsigned.to_uint_nonzero p) as Hz.
  pose proof (DecimalFacts.nzhead_nonzero (Pos.to_uint p)) as Hn.
  unfold Decimal.unorm in E.
  destruct (Decimal.nzhead (Pos.to_uint p)) as [| u | u | u | u | u | u | u | u | u | u] eqn:En;
    try (rewrite E; cbn; eexists _, _; repeat split; discriminate).
  - now rewrite E in Hz.
  - now destruct (Hn u).
Qed.

Lemma startswith_head (a c : N) (p s : list N) :
  a <> c -> startswith (a :: p) (c :: s) = false.
Proof. intros H. cbn. now rewrite (proj2 (N.eqb_neq a c) H). Qed.


Lemma is_digit_range (c : N) : is_digit c = true -> 48 <= c <= 57.
Proof.
  unfold is_digit. intros [H1 H2]%andb_true_iff.
  apply N.leb_le in H1, H2. lia.
Qed.






Lemma skip_ws_head (c : N) (t : list N) :
  is_ws c = false -> skip_ws (c :: t) = c :: t.
Proof. intros H. cbn. now rewrite H. Qed.
























(** ** The claims about one scene file *)







Lemma truthy_str_nonempty (v : value) (name : list N) :
  truthy v = Some true -> py_str v = Some name -> name <> [].
Proof.
  destruct v as [| [] | z | lit | s | l | d]; try discriminate;
    cbn; intros Ht [= <-]; try discriminate.
  - destruct z as [|p|p]; try discriminate; unfold int_repr.
    destruct (pos_repr_head p) as (c & ds & -> & _). discriminate.
  - intros ->. discriminate.
Qed.




(** * More about the loader *)

(** ** What the decoder takes is JSON text *)

Lemma skip_ws_split (s : list N) :
  exists ws, s = ws ++ skip_ws s /\ json_ws ws.
Proof.
  induction s as [|c s (ws & E & H)].
  - exists []. split; [reflexivity | constructor].
  - cbn [skip_ws]. destruct (is_ws c) eqn:Hc.
    + exists (c :: ws). split; [cbn; congruence|].
      constructor; [|exact H]. unfold is_ws in Hc. lia.
    + exists []. split; [reflexivity | constructor].
Qed.

Lemma skip_ws_length (s : list N) : (length (skip_ws s) <= length s)%nat.
Proof.
  destruct (skip_ws_split s) as (ws & E & _).
  rewrite E at 2. rewrite length_app. lia.
Qed.

Lemma peek_inv (c : N) (s r : list N) : peek c s = Some r -> s = c :: r.
Proof.
  destruct s as [|x s]; [discriminate|]. cbn.
  destruct (x =? c) eqn:E; [|discriminate]. intros [= <-]. f_equal. lia.
Qed.

Lemma startswith_drop (p s : list N) :
  startswith p s = true -> s = p ++ drop (length p) s.
Proof.
  revert s. induction p as [|a p IH]; intros [|b s] H; try reflexivity;
    try discriminate.
  cbn in H. apply andb_true_iff in H as [E H]. apply N.eqb_eq in E as ->.
  cbn. f_equal. now apply IH.
Qed.

Lemma span_digits_inv (s ds r : list N) :
  span_digits s = (ds, r) -> s = ds ++ r /\ Forall (fun c => 48 <= c <= 57) ds.
Proof.
  revert ds r. induction s as [|c s IH]; intros ds r; cbn.
  - intros [= <- <-]. split; [reflexivity | constructor].
  - destruct (is_digit c) eqn:Hc.
    + destruct (span_digits s) as [ds' r'] eqn:E. intros [= <- <-].
      destruct (IH _ _ eq_refl) as [-> H]. split; [reflexivity|].
      constructor; [now apply is_digit_range | exact H].
    + intros [= <- <-]. split; [reflexivity | constructor].
Qed.

Lemma hex_val_hex (c x : N) : hex_val c = Some x -> json_hex c.
Proof.
  unfold hex_val, json_hex, is_digit.
  destruct ((48 <=? c) && (c <=? 57)) eqn:E1; [lia|].
  destruct ((97 <=? c) && (c <=? 102)) eqn:E2; [lia|].
  destruct ((65 <=? c) && (c <=? 70)) eqn:E3; [lia | discriminate].
Qed.

Lemma hex4_hex (a b c d u : N) :
  hex4 a b c d = Some u -> json_hex a /\ json_hex b /\ json_hex c /\ json_hex d.
Proof.
  unfold hex4.
  destruct (hex_val a) eqn:Ha, (hex_val b) eqn:Hb, (hex_val c) eqn:Hc,
    (hex_val d) eqn:Hd; try discriminate.
  intros _. repeat split; eapply hex_val_hex; eassumption.
Qed.

Lemma unescape_escape (c x : N) :
  unescape c = Some x -> c ∈ [34; 92; 47; 98; 102; 110; 114; 116].
Proof.
  unfold unescape. rewrite !elem_of_cons.
  destruct ((c =? 34) || (c =? 92) || (c =? 47)) eqn:E; [lia|].
  destruct (c =? 98) eqn:E1; [lia|]. destruct (c =? 102) eqn:E2; [lia|].
  destruct (c =? 110) eqn:E3; [lia|]. destruct (c =? 114) eqn:E4; [lia|].
  destruct (c =? 116) eqn:E5; [lia | discriminate].
Qed.

Lemma scanstring_sound (n : nat) (s k r : list N) :
  (length s <= n)%nat -> scanstring s = Some (k, r) ->
  exists t, s = t ++ 34 :: r /\ json_chars t.
Proof.
  revert s k r. induction n as [|n IH]; intros [|c s] k r Hn; try discriminate.
  { cbn in Hn. lia. }
  cbn [length] in Hn.
  cbn [scanstring].
  destruct (c =? 34) eqn:Hq.
  { intros [= <- <-]. exists []. split; [cbn; f_equal; lia | constructor]. }
  destruct (c =? 92) eqn:Hb.
  - assert (c = 92) as -> by lia.
    destruct s as [|e r1]; [discriminate|].
    destruct (e =? 117) eqn:Hu.
    + assert (e = 117) as -> by lia.
      destruct r1 as [|a [|b [|c [|d r2]]]]; try discriminate.
      destruct (hex4 a b c d) as [u|] eqn:Hh; [|discriminate].
      apply hex4_hex in Hh as (Ha & Hb' & Hc & Hd).
      assert (Halone : forall k r,
                match scanstring r2 with
                | Some (k', t) => Some (u :: k', t)
                | None => None
                end = Some (k, r) ->
                exists t, 92 :: 117 :: a :: b :: c :: d :: r2 = t ++ 34 :: r
                          /\ json_chars t).
      { intros k' r' H. destruct (scanstring r2) as [[k1 t1]|] eqn:E;
          [|discriminate]. injection H as <- <-.
        destruct (IH r2 k1 t1) as (t & -> & Ht); [cbn in Hn; lia | exact E |].
        exists (92 :: 117 :: a :: b :: c :: d :: t). split; [reflexivity|].
        now apply chars_hex. }
      destruct (is_high_surrogate u); [|apply Halone].
      destruct r2 as [|x1 [|x2 [|a' [|b' [|c' [|d' r3]]]]]]; try apply Halone.
      destruct (hex4 a' b' c' d') as [u'|] eqn:Hh'; [|apply Halone].
      destruct ((x1 =? 92) && (x2 =? 117) && is_low_surrogate u') eqn:Hj;
        [|apply Halone].
      apply hex4_hex in Hh' as (Ha' & Hb'' & Hc' & Hd').
      assert (x1 = 92) as -> by lia. assert (x2 = 117) as -> by lia.
      destruct (scanstring r3) as [[k1 t1]|] eqn:E; [|discriminate].
      intros [= <- <-].
      destruct (IH r3 k1 t1) as (t & -> & Ht); [cbn in Hn; lia | exact E |].
      exists (92 :: 117 :: a :: b :: c :: d
              :: 92 :: 117 :: a' :: b' :: c' :: d' :: t).
      split; [reflexivity|]. apply chars_hex; auto. now apply chars_hex.
    + destruct (unescape e) as [x|] eqn:He; [|discriminate].
      apply unescape_escape in He.
      destruct (scanstring r1) as [[k1 t1]|] eqn:E; [|discriminate].
      intros [= <- <-].
      destruct (IH r1 k1 t1) as (t & -> & Ht); [cbn in Hn; lia | exact E |].
      exists (92 :: e :: t). split; [reflexivity|]. now apply chars_escape.
  - destruct (c <? 32) eqn:Hc; [discriminate|].
    destruct (scanstring s) as [[k1 t1]|] eqn:E; [|discriminate].
    intros [= <- <-].
    destruct (IH s k1 t1) as (t & -> & Ht); [lia | exact E |].
    exists (c :: t). split; [reflexivity|]. apply chars_plain; auto; lia.
Qed.

Lemma match_number_sound (s : list N) (v : value) (r : list N) :
  match_number s = Some (v, r) -> exists t, s = t ++ r /\ json_number t.
Proof.
  unfold match_number.
  set (p := match peek 45 s with Some r => ([45], r) | None => ([], s) end).
  assert (Hp : s = p.1 ++ p.2 /\ (p.1 = [] \/ p.1 = [45])).
  { subst p. destruct (peek 45 s) as [r0|] eqn:E; cbn; [|auto].
    apply peek_inv in E as ->. auto. }
  destruct p as [sign s1]. cbn [fst snd] in Hp. destruct Hp as [-> Hsign].
  destruct s1 as [|c r0]; [discriminate|].
  set (ip := if c =? 48 then Some ([48], r0)
             else if is_digit c
                  then let '(ds, r') := span_digits r0 in Some (c :: ds, r')
                  else None).
  assert (Hip : forall ds r1, ip = Some (ds, r1) ->
            c :: r0 = ds ++ r1 /\ json_digits ds
            /\ (ds = [48] \/ head ds <> Some 48)).
  { subst ip. intros ds r1. destruct (c =? 48) eqn:E0.
    - intros [= <- <-]. assert (c = 48) as -> by lia.
      split; [reflexivity|]. split; [|now left].
      split; [discriminate | repeat constructor; lia].
    - destruct (is_digit c) eqn:Ed; [|discriminate].
      destruct (span_digits r0) as [ds' r'] eqn:E. intros [= <- <-].
      apply span_digits_inv in E as [-> H]. apply is_digit_range in Ed.
      split; [reflexivity|]. split; [split; [discriminate | now constructor]|].
      right. cbn. intros [= ->]. lia. }
  destruct ip as [[ds r1]|]; [|discriminate].
  destruct (Hip _ _ eq_refl) as (E & Hds & Hz). rewrite E. clear Hip E.
  set (fp := match peek 46 r1 with
             | Some r' =>
                 match span_digits r' with
                 | ([], _) => ([], r1)
                 | (fs, r'') => (46 :: fs, r'')
                 end
             | None => ([], r1)
             end).
  assert (Hfp : r1 = fp.1 ++ fp.2
                /\ (fp.1 = [] \/ exists fs, fp.1 = 46 :: fs /\ json_digits fs)).
  { subst fp. destruct (peek 46 r1) as [r'|] eqn:E; [|cbn; auto].
    apply peek_inv in E as ->.
    destruct (span_digits r') as [[|f fs] r''] eqn:E; [cbn; auto|].
    apply span_digits_inv in E as [-> H]. cbn [fst snd].
    split; [reflexivity|]. right. exists (f :: fs). now repeat split. }
  destruct fp as [frac r2]. cbn [fst snd] in Hfp. destruct Hfp as [-> Hfrac].
  set (ep := match r2 with
             | e :: r' =>
                 if (e =? 101) || (e =? 69) then
                   let '(sg, t) :=
                     match r' with
                     | g :: t =>
                         if (g =? 43) || (g =? 45) then ([g], t) else ([], r')
                     | [] => ([], r')
                     end in
                   match span_digits t with
                   | ([], _) => ([], r2)
                   | (es, t') => (e :: sg ++ es, t')
                   end
                 else ([], r2)
             | [] => ([], r2)
             end).
  assert (Hep : r2 = ep.1 ++ ep.2
                /\ (ep.1 = []
                    \/ exists e sg es, ep.1 = e :: sg ++ es /\ (e = 101 \/ e = 69)
                         /\ (sg = [] \/ sg = [43] \/ sg = [45])
                         /\ json_digits es)).
  { subst ep. destruct r2 as [|e r']; [cbn; auto|].
    destruct ((e =? 101) || (e =? 69)) eqn:Ee; [|cbn; auto].
    set (sp := match r' with
               | g :: t => if (g =? 43) || (g =? 45) then ([g], t) else ([], r')
               | [] => ([], r')
               end).
    assert (Hsp : r' = sp.1 ++ sp.2 /\ (sp.1 = [] \/ sp.1 = [43] \/ sp.1 = [45])).
    { subst sp. destruct r' as [|g t]; [cbn; auto|].
      destruct ((g =? 43) || (g =? 45)) eqn:Eg; cbn; [|auto].
      split; [reflexivity|]. right.
      destruct (g =? 43) eqn:E3; [left | right]; f_equal; lia. }
    destruct sp as [sg t]. cbn [fst snd] in Hsp. destruct Hsp as [-> Hsg].
    destruct (span_digits t) as [[|x es] t'] eqn:E; [cbn; auto|].
    apply span_digits_inv in E as [-> H]. cbn [fst snd].
    split; [cbn; now rewrite <- app_assoc|]. right. exists e, sg, (x :: es).
    repeat split; auto. lia. }
  destruct ep as [ex r3]. cbn [fst snd] in Hep. destruct Hep as [-> Hex].
  intros H. assert (r = r3) as ->.
  { destruct frac, ex; now injection H. }
  exists (sign ++ ds ++ frac ++ ex). split; [now rewrite <- !app_assoc|].
  exists sign, ds, frac, ex. repeat split; auto; apply Hds.
Qed.

Lemma json_number_nonempty (s : list N) : json_number s -> s <> [].
Proof.
  intros (sign & int & frac & ex & -> & _ & [Hi _] & _) H.
  apply app_eq_nil in H as [_ H]. now apply app_eq_nil in H as [H _].
Qed.

Lemma json_value_nonempty (ext : bool) (s : list N) :
  json_value ext s -> (1 <= length s)%nat.
Proof.
  destruct 1 as [| | | | | | s H | | | | |];
    try (cbn; lia); try (vm_compute; lia).
  apply json_number_nonempty in H. destruct s; [congruence | cbn; lia].
Qed.

Lemma scan_literal_sound (s : list N) (v : value) (r : list N) :
  scan_literal s = Some (v, r) -> exists t, s = t ++ r /\ json_value true t.
Proof.
  unfold scan_literal.
  destruct (startswith (py "null") s) eqn:E1.
  { intros [= <- <-]. exists (py "null").
    split; [exact (startswith_drop _ _ E1) | constructor]. }
  destruct (startswith (py "true") s) eqn:E2.
  { intros [= <- <-]. exists (py "true").
    split; [exact (startswith_drop _ _ E2) | constructor]. }
  destruct (startswith (py "false") s) eqn:E3.
  { intros [= <- <-]. exists (py "false").
    split; [exact (startswith_drop _ _ E3) | constructor]. }
  destruct (startswith (py "NaN") s) eqn:E4.
  { intros [= <- <-]. exists (py "NaN").
    split; [exact (startswith_drop _ _ E4) | now constructor]. }
  destruct (startswith (py "Infinity") s) eqn:E5.
  { intros [= <- <-]. exists (py "Infinity").
    split; [exact (startswith_drop _ _ E5) | now constructor]. }
  destruct (startswith (py "-Infinity") s) eqn:E6.
  { intros [= <- <-]. exists (py "-Infinity").
    split; [exact (startswith_drop _ _ E6) | now constructor]. }
  intros H. apply match_number_sound in H as (t & -> & Ht).
  exists t. split; [reflexivity | now apply value_number].
Qed.

Lemma json_ws_app (a b : list N) : json_ws a -> json_ws b -> json_ws (a ++ b).
Proof. apply Forall_app_2. Qed.

Lemma json_elements_ws (ext : bool) (ws es : list N) :
  json_ws ws -> json_elements ext es -> json_elements ext (ws ++ es).
Proof.
  intros Hw [ws1 v ws2 H1 Hv H2 | ws1 v ws2 es' H1 Hv H2 Hes];
    rewrite app_assoc.
  - apply elements_one; auto using json_ws_app.
  - apply elements_more; auto using json_ws_app.
Qed.

Lemma json_members_ws (ext : bool) (ws ms : list N) :
  json_ws ws -> json_members ext ms -> json_members ext (ws ++ ms).
Proof.
  intros Hw [ws1 k ws2 ws3 v ws4 H1 Hk H2 H3 Hv H4
            | ws1 k ws2 ws3 v ws4 ms' H1 Hk H2 H3 Hv H4 Hms];
    rewrite app_assoc.
  - apply members_one; auto using json_ws_app.
  - apply members_more; auto using json_ws_app.
Qed.

Ltac flat := repeat (rewrite <- app_assoc || rewrite <- app_comm_cons);
             cbn [app].

Ltac lens :=
  repeat match goal with
         | H : ?s = _ ++ _ |- _ => apply (f_equal length) in H
         | H : ?s = _ :: _ |- _ => apply (f_equal length) in H
         end;
  rewrite ?length_app in *; cbn [length] in *;
  rewrite ?length_app in *; cbn [length] in *.

(** The decoder with fuel [n]: what it returns is read from the head of
    the text and is a value (the elements of an array up to its bracket,
    the members of an object up to its brace); it raises [JSONDecodeError]
    only, unless the fuel is less than two units for every character. *)
Lemma decoder_sound (n : nat) :
  forall s,
    match scan_once n s with
    | Return (v, r) => exists t, s = t ++ r /\ json_value true t
    | Raise e => e = JSONDecodeError
                 \/ (e = RecursionError /\ n < 2 * length s + 1)%nat
    | Unmodelled => False
    end
    /\ match parse_items n s with
       | Return (vs, r) => exists es, s = es ++ 93 :: r /\ json_elements true es
       | Raise e => e = JSONDecodeError
                    \/ (e = RecursionError /\ n < 2 * length s + 2)%nat
       | Unmodelled => False
       end
    /\ match parse_members n s with
       | Return (ps, r) => exists ms, s = ms ++ 125 :: r /\ json_members true ms
       | Raise e => e = JSONDecodeError
                    \/ (e = RecursionError /\ n < 2 * length s + 2)%nat
       | Unmodelled => False
       end.
Proof.
  induction n as [|n IH]; intros s.
  { cbn. repeat split; right; split; auto; lia. }
  split; [|split].
  - cbn [scan_once]. destruct s as [|c r]; [now left|].
    destruct (c =? 34) eqn:E1.
    { assert (c = 34) as -> by lia.
      destruct (scanstring r) as [[k r']|] eqn:E; [|now left].
      apply (scanstring_sound (length r)) in E as (t & -> & Ht); [|lia].
      exists (34 :: t ++ [34]). split; [now flat | now apply value_string]. }
    destruct (c =? 123) eqn:E2.
    { assert (c = 123) as -> by lia.
      destruct (skip_ws_split r) as (ws & Er & Hws).
      destruct (peek 125 (skip_ws r)) as [r'|] eqn:E.
      - apply peek_inv in E. rewrite E in Er. subst r.
        exists (123 :: ws ++ [125]).
        split; [now flat | now apply value_object_empty].
      - destruct (IH (skip_ws r)) as (_ & _ & H).
        pose proof (skip_ws_length r) as Hl.
        destruct (parse_members n (skip_ws r)) as [[ps r']|e|]; cbn; auto.
        + destruct H as (ms & Ems & Hms). rewrite Ems in Er. subst r.
          exists (123 :: (ws ++ ms) ++ [125]). split; [now flat|].
          apply value_object. now apply json_members_ws.
        + destruct H as [H | [H1 H2]]; [now left | right].
          split; [exact H1 | cbn [length]; lia]. }
    destruct (c =? 91) eqn:E3.
    { assert (c = 91) as -> by lia.
      destruct (skip_ws_split r) as (ws & Er & Hws).
      destruct (peek 93 (skip_ws r)) as [r'|] eqn:E.
      - apply peek_inv in E. rewrite E in Er. subst r.
        exists (91 :: ws ++ [93]).
        split; [now flat | now apply value_array_empty].
      - destruct (IH (skip_ws r)) as (_ & H & _).
        pose proof (skip_ws_length r) as Hl.
        destruct (parse_items n (skip_ws r)) as [[vs r']|e|]; cbn; auto.
        + destruct H as (es & Ees & Hes). rewrite Ees in Er. subst r.
          exists (91 :: (ws ++ es) ++ [93]). split; [now flat|].
          apply value_array. now apply json_elements_ws.
        + destruct H as [H | [H1 H2]]; [now left | right].
          split; [exact H1 | cbn [length]; lia]. }
    destruct (scan_literal (c :: r)) as [[v r']|] eqn:E; [|now left].
    now apply scan_literal_sound in E.
  - cbn [parse_items]. destruct (IH s) as (H & _ & _).
    destruct (scan_once n s) as [[v r]|e|]; cbn; auto.
    2:{ destruct H as [H | [H1 H2]]; [now left | right].
        split; [exact H1 | lia]. }
    destruct H as (t & Es & Ht).
    pose proof (json_value_nonempty _ _ Ht) as Hlt.
    destruct (skip_ws_split r) as (ws & Er & Hws).
    destruct (peek 93 (skip_ws r)) as [r'|] eqn:E.
    { apply peek_inv in E. rewrite E in Er. subst r s.
      exists (t ++ ws). split; [now flat|].
      apply (elements_one true [] t ws); auto. constructor. }
    destruct (peek 44 (skip_ws r)) as [r'|] eqn:E'; [|now left].
    apply peek_inv in E'. rewrite E' in Er.
    destruct (skip_ws_split r') as (ws' & Er' & Hws').
    destruct (IH (skip_ws r')) as (_ & H & _).
    destruct (parse_items n (skip_ws r')) as [[vs t']|e|]; cbn; auto.
    + destruct H as (es & Ees & Hes). rewrite Ees in Er'. subst r' r s.
      exists (t ++ ws ++ 44 :: ws' ++ es). split; [now flat|].
      apply (elements_more true [] t ws (ws' ++ es)); auto.
      * constructor.
      * now apply json_elements_ws.
    + destruct H as [H | [H1 H2]]; [now left | right].
      split; [exact H1|]. lens. lia.
  - cbn [parse_members].
    destruct (peek 34 s) as [r|] eqn:E0; [|now left].
    apply peek_inv in E0.
    destruct (scanstring r) as [[k r1]|] eqn:Ek; [|now left].
    apply (scanstring_sound (length r)) in Ek as (tk & Er & Hk); [|lia].
    destruct (skip_ws_split r1) as (ws2 & Er1 & Hws2).
    destruct (peek 58 (skip_ws r1)) as [r2|] eqn:E2; [|now left].
    apply peek_inv in E2. rewrite E2 in Er1.
    destruct (skip_ws_split r2) as (ws3 & Er2 & Hws3).
    destruct (IH (skip_ws r2)) as (H & _ & _).
    destruct (scan_once n (skip_ws r2)) as [[v r3]|e|]; cbn; auto.
    2:{ destruct H as [H | [H1 H2]]; [now left | right].
        split; [exact H1|]. lens. lia. }
    destruct H as (t & Et & Ht). rewrite Et in Er2.
    pose proof (json_value_nonempty _ _ Ht) as Hlt.
    destruct (skip_ws_split r3) as (ws4 & Er3 & Hws4).
    destruct (peek 125 (skip_ws r3)) as [r4|] eqn:E4.
    { apply peek_inv in E4. rewrite E4 in Er3. subst r3 r2 r1 r s.
      exists (34 :: tk ++ 34 :: ws2 ++ 58 :: ws3 ++ t ++ ws4).
      split; [now flat|].
      apply (members_one true [] tk ws2 ws3 t ws4); auto. constructor. }
    destruct (peek 44 (skip_ws r3)) as [r4|] eqn:E4'; [|now left].
    apply peek_inv in E4'. rewrite E4' in Er3.
    destruct (skip_ws_split r4) as (ws5 & Er4 & Hws5).
    destruct (IH (skip_ws r4)) as (_ & _ & H).
    destruct (parse_members n (skip_ws r4)) as [[ps r5]|e|]; cbn; auto.
    + destruct H as (ms & Ems & Hms). rewrite Ems in Er4.
      subst r4 r3 r2 r1 r s.
      exists (34 :: tk ++ 34 :: ws2 ++ 58 :: ws3 ++ t ++ ws4
              ++ 44 :: ws5 ++ ms).
      split; [now flat|].
      apply (members_more true [] tk ws2 ws3 t ws4 (ws5 ++ ms)); auto.
      * constructor.
      * now apply json_members_ws.
    + destruct H as [H | [H1 H2]]; [now left | right].
      split; [exact H1|]. clear Et. lens. lia.
Qed.

(** [loads] takes JSON text only, and what it raises is [JSONDecodeError]:
    its fuel is enough. *)
Lemma loads_cases (s : list N) :
  match loads s with
  | Return _ => json_text true s
  | Raise e => e = JSONDecodeError
  | Unmodelled => False
  end.
Proof.
  unfold loads. destruct (startswith [65279] s); [reflexivity|].
  destruct (skip_ws_split s) as (ws1 & Es & Hws1).
  pose proof (skip_ws_length s) as Hl.
  destruct (decoder_sound (2 * length s + 2) (skip_ws s)) as (H & _ & _).
  destruct (scan_once (2 * length s + 2) (skip_ws s)) as [[v r]|e|]; cbn; auto.
  - destruct H as (t & Et & Ht).
    destruct (skip_ws_split r) as (ws2 & Er & Hws2).
    destruct (skip_ws r); [|reflexivity].
    exists ws1, t, ws2. rewrite app_nil_r in Er. subst r.
    rewrite Et in Es. auto.
  - destruct H as [H | [_ H]]; [exact H | lia].
Qed.

Lemma newlines_of_universal (s : list N) : newlines_of s (universal_newlines s).
Proof.
  assert (H : forall n s, (length s <= n)%nat ->
            newlines_of s (universal_newlines s)).
  { clear s. induction n as [|n IH]; intros [|c s] Hn;
      try constructor; cbn in Hn; [lia|].
    cbn [universal_newlines]. destruct (c =? 13) eqn:E.
    - assert (c = 13) as -> by lia. destruct s as [|c' s'].
      + apply newlines_cr. constructor.
      + destruct (c' =? 10) eqn:E'.
        * assert (c' = 10) as -> by lia. apply newlines_crlf, IH.
          cbn in Hn. lia.
        * apply newlines_cr, IH. lia.
    - apply newlines_char; [lia|]. apply IH. lia. }
  now apply (H (length s)).
Qed.

Lemma newlines_of_app_inv (s a b : list N) :
  newlines_of s (a ++ b) ->
  exists a' b', s = a' ++ b' /\ newlines_of a' a /\ newlines_of b' b.
Proof.
  intros H. remember (a ++ b) as t eqn:Et. revert a b Et.
  induction H as [|c s t Hc H IH|s t H IH|s t H IH]; intros a b Et.
  - symmetry in Et. apply app_eq_nil in Et as [-> ->].
    exists [], []. repeat split; constructor.
  - destruct a as [|x a].
    + cbn in Et. subst b. exists [], (c :: s).
      repeat split; [constructor | now constructor].
    + injection Et as <- Et. destruct (IH _ _ Et) as (a' & b' & -> & Ha & Hb).
      exists (c :: a'), b'. repeat split; auto. now constructor.
  - destruct a as [|x a].
    + cbn in Et. subst b. exists [], (13 :: s).
      repeat split; [constructor | now apply newlines_cr].
    + injection Et as <- Et. destruct (IH _ _ Et) as (a' & b' & -> & Ha & Hb).
      exists (13 :: a'), b'. repeat split; auto. now apply newlines_cr.
  - destruct a as [|x a].
    + cbn in Et. subst b. exists [], (13 :: 10 :: s).
      repeat split; [constructor | now apply newlines_crlf].
    + injection Et as <- Et. destruct (IH _ _ Et) as (a' & b' & -> & Ha & Hb).
      exists (13 :: 10 :: a'), b'. repeat split; auto. now apply newlines_crlf.
Qed.

Lemma newlines_of_same (s t : list N) :
  newlines_of s t -> 10 ∉ t -> s = t.
Proof.
  induction 1 as [|c s t Hc H IH|s t H IH|s t H IH]; intros Hn.
  - reflexivity.
  - f_equal. apply IH. intros Hin. apply Hn. now right.
  - destruct Hn. left.
  - destruct Hn. left.
Qed.

Lemma newlines_of_cons_inv (s t : list N) (c : N) :
  newlines_of s (c :: t) -> c <> 10 ->
  exists s', s = c :: s' /\ newlines_of s' t.
Proof.
  intros H Hc. inversion H; subst; try congruence. eauto.
Qed.

Lemma newlines_of_ws (s t : list N) :
  newlines_of s t -> json_ws t -> json_ws s.
Proof.
  unfold json_ws.
  induction 1 as [|c s t Hc H IH|s t H IH|s t H IH]; intros Hw;
    [constructor | ..]; apply Forall_cons in Hw as [Hc' Hw].
  - apply Forall_cons. auto.
  - apply Forall_cons. auto.
  - apply Forall_cons. split; [auto|]. apply Forall_cons. auto.
Qed.

Lemma json_digits_no_lf (s : list N) : json_digits s -> 10 ∉ s.
Proof.
  intros [_ H] Hin. rewrite Forall_forall in H. apply H in Hin. lia.
Qed.

Lemma json_number_no_lf (s : list N) : json_number s -> 10 ∉ s.
Proof.
  intros (sign & int & frac & ex & -> & Hs & Hi & _ & Hf & He).
  rewrite !elem_of_app. intros [H | [H | [H | H]]].
  - destruct Hs as [-> | ->]; [inversion H|].
    apply list_elem_of_singleton in H. discriminate.
  - now apply json_digits_no_lf in Hi.
  - destruct Hf as [-> | (ds & -> & Hd)]; [inversion H|].
    apply elem_of_cons in H as [H | H]; [discriminate|].
    now apply json_digits_no_lf in Hd.
  - destruct He as [-> | (e & sg & ds & -> & He & Hsg & Hd)]; [inversion H|].
    apply elem_of_cons in H as [H | H]; [lia|].
    apply elem_of_app in H as [H | H].
    + destruct Hsg as [-> | [-> | ->]]; [inversion H | |];
        apply list_elem_of_singleton in H; discriminate.
    + now apply json_digits_no_lf in Hd.
Qed.

Lemma json_chars_no_lf (s : list N) : json_chars s -> 10 ∉ s.
Proof.
  induction 1 as [|c s H1 H2 H3 H IH|c s Hc H IH|a b c d s Ha Hb Hc Hd H IH];
    rewrite ?elem_of_cons.
  - inversion 1.
  - intros [E | Hin]; [lia | auto].
  - rewrite !elem_of_cons in Hc.
    intros [E | [E | Hin]]; [discriminate | | auto].
    destruct Hc as [Hc | [Hc | [Hc | [Hc | [Hc | [Hc | [Hc | [Hc | Hc]]]]]]]];
      try lia. inversion Hc.
  - unfold json_hex in *.
    intros [E | [E | [E | [E | [E | [E | Hin]]]]]]; try lia; auto.
Qed.

Lemma newlines_of_chars (s t : list N) :
  newlines_of s t -> json_chars t -> json_chars s.
Proof.
  intros H Ht. now rewrite (newlines_of_same _ _ H (json_chars_no_lf _ Ht)).
Qed.

Lemma newlines_of_literal (s t : list N) :
  newlines_of s t -> bool_decide (10 ∉ t) = true -> s = t.
Proof.
  intros H Ht. apply (newlines_of_same _ _ H).
  now apply bool_decide_eq_true in Ht.
Qed.

Lemma newlines_of_bracket (s t : list N) (a b : N) :
  newlines_of s (a :: t ++ [b]) -> a <> 10 -> b <> 10 ->
  exists s', s = a :: s' ++ [b] /\ newlines_of s' t.
Proof.
  intros H Ha Hb.
  apply newlines_of_cons_inv in H as (s1 & -> & H); [|exact Ha].
  apply newlines_of_app_inv in H as (s' & x & -> & H & Hx).
  apply newlines_of_same in Hx as ->; [eauto|].
  intros Hin. apply list_elem_of_singleton in Hin. congruence.
Qed.

(** JSON text stays JSON text when line ends are written as carriage
    returns: no line end is inside a token. *)
Lemma newlines_of_json (ext : bool) :
  (forall t, json_value ext t ->
     forall s, newlines_of s t -> json_value ext s)
  /\ (forall t, json_elements ext t ->
        forall s, newlines_of s t -> json_elements ext s)
  /\ (forall t, json_members ext t ->
        forall s, newlines_of s t -> json_members ext s).
Proof.
  apply json_mutind.
  - intros s H. apply newlines_of_literal in H as ->; [constructor | reflexivity].
  - intros s H. apply newlines_of_literal in H as ->; [constructor | reflexivity].
  - intros s H. apply newlines_of_literal in H as ->; [constructor | reflexivity].
  - intros He s H.
    apply newlines_of_literal in H as ->; [now constructor | reflexivity].
  - intros He s H.
    apply newlines_of_literal in H as ->; [now constructor | reflexivity].
  - intros He s H.
    apply newlines_of_literal in H as ->; [now constructor | reflexivity].
  - intros t Ht s H.
    apply newlines_of_same in H as ->; [now apply value_number|].
    now apply json_number_no_lf.
  - intros t Ht s H.
    apply newlines_of_bracket in H as (s' & -> & H); [|discriminate..].
    apply value_string. eapply newlines_of_chars; eauto.
  - intros ws Hws s H.
    apply newlines_of_bracket in H as (s' & -> & H); [|discriminate..].
    apply value_array_empty. eapply newlines_of_ws; eauto.
  - intros es _ IH s H.
    apply newlines_of_bracket in H as (s' & -> & H); [|discriminate..].
    apply value_array. auto.
  - intros ws Hws s H.
    apply newlines_of_bracket in H as (s' & -> & H); [|discriminate..].
    apply value_object_empty. eapply newlines_of_ws; eauto.
  - intros ms _ IH s H.
    apply newlines_of_bracket in H as (s' & -> & H); [|discriminate..].
    apply value_object. auto.
  - intros ws1 v ws2 H1 _ IHv H2 s H.
    apply newlines_of_app_inv in H as (a1 & s1 & -> & Ha1 & H).
    apply newlines_of_app_inv in H as (a2 & a3 & -> & Ha2 & Ha3).
    apply elements_one; eauto using newlines_of_ws.
  - intros ws1 v ws2 es H1 _ IHv H2 _ IHes s H.
    apply newlines_of_app_inv in H as (a1 & s1 & -> & Ha1 & H).
    apply newlines_of_app_inv in H as (a2 & s2 & -> & Ha2 & H).
    apply newlines_of_app_inv in H as (a3 & s3 & -> & Ha3 & H).
    apply newlines_of_cons_inv in H as (a4 & -> & Ha4); [|discriminate].
    apply elements_more; eauto using newlines_of_ws.
  - intros ws1 k ws2 ws3 v ws4 H1 Hk H2 H3 _ IHv H4 s H.
    apply newlines_of_app_inv in H as (a1 & s1 & -> & Ha1 & H).
    apply newlines_of_cons_inv in H as (s2 & -> & H); [|discriminate].
    apply newlines_of_app_inv in H as (ak & s3 & -> & Hak & H).
    apply newlines_of_cons_inv in H as (s4 & -> & H); [|discriminate].
    apply newlines_of_app_inv in H as (a2 & s5 & -> & Ha2 & H).
    apply newlines_of_cons_inv in H as (s6 & -> & H); [|discriminate].
    apply newlines_of_app_inv in H as (a3 & s7 & -> & Ha3 & H).
    apply newlines_of_app_inv in H as (av & a4 & -> & Hav & Ha4).
    apply members_one; eauto using newlines_of_ws, newlines_of_chars.
  - intros ws1 k ws2 ws3 v ws4 ms H1 Hk H2 H3 _ IHv H4 _ IHms s H.
    apply newlines_of_app_inv in H as (a1 & s1 & -> & Ha1 & H).
    apply newlines_of_cons_inv in H as (s2 & -> & H); [|discriminate].
    apply newlines_of_app_inv in H as (ak & s3 & -> & Hak & H).
    apply newlines_of_cons_inv in H as (s4 & -> & H); [|discriminate].
    apply newlines_of_app_inv in H as (a2 & s5 & -> & Ha2 & H).
    apply newlines_of_cons_inv in H as (s6 & -> & H); [|discriminate].
    apply newlines_of_app_inv in H as (a3 & s7 & -> & Ha3 & H).
    apply newlines_of_app_inv in H as (av & s8 & -> & Hav & H).
    apply newlines_of_app_inv in H as (a4 & s9 & -> & Ha4 & H).
    apply newlines_of_cons_inv in H as (ams & -> & Hams); [|discriminate].
    apply members_more; eauto using newlines_of_ws, newlines_of_chars.
Qed.

Lemma newlines_of_text (ext : bool) (s t : list N) :
  newlines_of s t -> json_text ext t -> json_text ext s.
Proof.
  intros H (ws1 & v & ws2 & -> & H1 & Hv & H2).
  apply newlines_of_app_inv in H as (a1 & s1 & -> & Ha1 & H).
  apply newlines_of_app_inv in H as (av & a2 & -> & Hav & Ha2).
  exists a1, av, a2. repeat split; eauto using newlines_of_ws.
  eapply (proj1 (newlines_of_json ext)); eauto.
Qed.







(** X1: [load_route_json] returns a value only for a file whose bytes are
    the UTF-8 encoding of a JSON text: the grammar of RFC 8259, where
    [NaN], [Infinity] and [-Infinity] count as values.  It changes nothing. *)
Theorem loaded_file_is_json_text (route_path : list N) (w w' : world)
  (route : value) :
  load_route_json route_path w = (w', Return route) ->
  w' = w
  /\ exists data text,
       open_r route_path w = (w, Return data)
       /\ utf8_decode data = Some text
       /\ json_text true text.
Proof.
  intros H. pose proof (load_route_json_frame _ _ _ _ H) as ->.
  split; [reflexivity|].
  unfold load_route_json in H. apply bind_inv in H as (w1 & data & Hr & H).
  pose proof (open_r_frame _ _ _ _ Hr) as ->.
  apply bind_inv in H as (w2 & text & Ht & H).
  unfold lift in Ht, H.
  destruct (utf8_decode data) as [s|] eqn:Ed; [|discriminate].
  injection Ht as <- <-. injection H as H.
  exists data, s. repeat split; auto.
  apply (newlines_of_text true s (universal_newlines s)).
  - apply newlines_of_universal.
  - pose proof (loads_cases (universal_newlines s)) as Hc.
    now rewrite H in Hc.
Qed.



Lemma loaded_file_is_json_text_witness :
  let w := demo_world (js "{'scenes': [], 'rate': NaN}") in
  w = w
  /\ exists data text,
       open_r (route_path_of demo_script) w = (w, Return data)
       /\ utf8_decode data = Some text
       /\ json_text true text.
Proof.
  intros w.
  assert (H : load_route_json (route_path_of demo_script) w
              = (w, Return (VDict [(py "scenes", VList []);
                                   (py "rate", VFloat (py "NaN"))])))
    by (vm_compute; reflexivity).
  exact (loaded_file_is_json_text _ _ _ _ H).
Defined.

(** * Runs that fail *)

Lemma makedirs_shape_le_any (name : list N) (w w1 : world) (r : outcome unit) :
  makedirs name w = (w1, r) -> shape_le (tree w) (tree w1).
Proof.
  unfold makedirs. destruct (os_path name) as [[|c b]|e|].
  - intros [= <- _]. apply shape_le_refl.
  - destruct (make_dirs _ _ _) as [t r'] eqn:E. intros [= <- _]. cbn.
    eapply make_dirs_shape_le, E.
  - intros [= <- _]. apply shape_le_refl.
  - intros [= <- _]. apply shape_le_refl.
Qed.

(** [makedirs] leaves every entry as it is and adds directories only. *)
Lemma makedirs_adds_dirs (name : list N) (w w1 : world) (r : outcome unit) :
  makedirs name w = (w1, r) ->
  forall x, tree w1 !! x = tree w !! x
            \/ (tree w !! x = None /\ tree w1 !! x = Some Dir).
Proof.
  unfold makedirs. destruct (os_path name) as [[|c b]|e|];
    try (intros [= <- _]; now left).
  destruct (make_dirs _ _ _) as [t r'] eqn:E. intros [= <- _] x. cbn.
  destruct (t !! x) as [n|] eqn:Ex.
  - destruct (make_dirs_adds_dirs _ _ _ _ _ E _ _ Ex) as [H | [H ->]]; auto.
  - destruct (tree w !! x) as [n|] eqn:Ew; [|now left].
    apply (make_dirs_keeps _ _ _ _ _ E) in Ew. congruence.
Qed.

Lemma open_w_frame (path : list N) (w w' : world) (r : outcome (list (list N))) :
  open_w path w = (w', r) ->
  (exists q, r = Return q /\ q <> [] /\ tree w !! q <> Some Dir
             /\ w' = World (<[q := File []]> (tree w)) (cwd w) (stdout w))
  \/ ((forall q, r <> Return q) /\ w' = w).
Proof.
  destruct r as [q|e|].
  - intros H. left. exists q.
    apply open_w_inv in H as (b & _ & _ & _ & Hq & ->).
    destruct q as [|c q]; [now destruct Hq|]. auto.
  - intros H. right. split; [discriminate|]. revert H. unfold open_w.
    destruct (os_path path) as [b|e'|]; try now intros [= <-].
    destruct (bool_decide (last b = Some 47)).
    + destruct (strip_slashes b); [now intros [= <-]|].
      destruct (resolve _ _ _); now intros [= <-].
    + destruct (resolve _ _ _) as [q|e'|]; try now intros [= <-].
      destruct (fs_lookup (tree w) q) as [[|d]|]; now intros [= <-].
  - intros H. right. split; [discriminate|]. revert H. unfold open_w.
    destruct (os_path path) as [b|e'|]; try now intros [= <-].
    destruct (bool_decide (last b = Some 47)).
    + destruct (strip_slashes b); [now intros [= <-]|].
      destruct (resolve _ _ _); now intros [= <-].
    + destruct (resolve _ _ _) as [q|e'|]; try now intros [= <-].
      destruct (fs_lookup (tree w) q) as [[|d]|]; now intros [= <-].
Qed.

Lemma fp_write_frame (fp : list (list N)) (c : chunk) (w w' : world)
  (r : outcome unit) (d0 : list N) :
  tree w !! fp = Some (File d0) -> fp_write fp c w = (w', r) ->
  exists d1, w' = World (<[fp := File d1]> (tree w)) (cwd w) (stdout w).
Proof.
  intros Hfp. unfold fp_write. destruct c as [s|lit].
  - destruct (utf8_encode s) as [bs|]; intros [= <- _]; [now eexists|].
    exists d0. destruct w as [t c o]. cbn in *. f_equal. symmetry.
    now apply insert_id.
  - intros [= <- _]. exists d0. destruct w as [t c o]. cbn in *. f_equal.
    symmetry. now apply insert_id.
Qed.

Lemma write_chunks_frame (fp : list (list N)) (cs : list chunk) :
  forall (w w' : world) (r : outcome unit) (d0 : list N),
  tree w !! fp = Some (File d0) -> write_chunks fp cs w = (w', r) ->
  exists d1, w' = World (<[fp := File d1]> (tree w)) (cwd w) (stdout w).
Proof.
  induction cs as [|c cs IH]; intros w w' r d0 Hfp.
  - intros [= <- _]. exists d0. destruct w as [t c o]. cbn in *. f_equal.
    symmetry. now apply insert_id.
  - cbn [write_chunks]. rewrite bind_unfold.
    destruct (fp_write fp c w) as [w1 r1] eqn:E.
    destruct (fp_write_frame _ _ _ _ _ _ Hfp E) as [d1 ->].
    destruct r1 as [[]|e|]; try (intros [= <- _]; eauto).
    intros H. eapply IH in H as [d2 ->]; [|apply lookup_insert_eq].
    exists d2. cbn. now rewrite insert_insert_eq.
Qed.

(** Whatever its outcome, a call of [write_scene_file] leaves the working
    directory and the output alone; in the tree it adds directories, and
    changes at most one entry, the file it opened. *)
Lemma write_scene_file_frame (output_dir : list N) (scene : value)
  (w w' : world) (r : outcome (list N)) :
  write_scene_file output_dir scene w = (w', r) ->
  cwd w' = cwd w /\ stdout w' = stdout w
  /\ exists oq : option (list (list N)),
       (forall x, oq <> Some x ->
          tree w' !! x = tree w !! x
          \/ (tree w !! x = None /\ tree w' !! x = Some Dir))
       /\ (forall q, oq = Some q ->
             tree w !! q <> Some Dir /\ exists d, tree w' !! q = Some (File d)).
Proof.
  assert (Hsame : forall w : world,
            cwd w = cwd w /\ stdout w = stdout w
            /\ exists oq : option (list (list N)),
                 (forall x, oq <> Some x ->
                    tree w !! x = tree w !! x
                    \/ (tree w !! x = None /\ tree w !! x = Some Dir))
                 /\ (forall q, oq = Some q ->
                       tree w !! q <> Some Dir
                       /\ exists d, tree w !! q = Some (File d))).
  { intros w0. repeat split. exists None. split; [auto | discriminate]. }
  unfold write_scene_file. rewrite bind_unfold. unfold lift at 1.
  destruct (py_get scene (py "scene_id") VNone) as [sid|e|];
    try (intros [= <- _]; apply Hsame).
  rewrite bind_unfold. unfold known at 1.
  destruct (truthy sid) as [b|]; try (intros [= <- _]; apply Hsame).
  destruct b; cbn [negb]; [|intros [= <- _]; apply Hsame].
  rewrite bind_unfold. destruct (makedirs output_dir w) as [w1 r1] eqn:Em.
  destruct (makedirs_inv _ _ _ _ Em) as [Hc1 Ho1].
  pose proof (makedirs_adds_dirs _ _ _ _ Em) as Hd1.
  assert (Hmk : cwd w1 = cwd w /\ stdout w1 = stdout w
            /\ exists oq : option (list (list N)),
                 (forall x, oq <> Some x ->
                    tree w1 !! x = tree w !! x
                    \/ (tree w !! x = None /\ tree w1 !! x = Some Dir))
                 /\ (forall q, oq = Some q ->
                       tree w !! q <> Some Dir
                       /\ exists d, tree w1 !! q = Some (File d))).
  { repeat split; auto. exists None. split; [auto | discriminate]. }
  destruct r1 as [[]|e|]; try (intros [= <- _]; exact Hmk).
  rewrite bind_unfold. unfold known at 1.
  destruct (py_str sid) as [name|]; try (intros [= <- _]; exact Hmk).
  rewrite bind_unfold.
  destruct (open_w (path_join output_dir (name ++ py ".json")) w1)
    as [w2 r2] eqn:Eo.
  apply open_w_frame in Eo as [(q & -> & Hq & Hnd & ->) | [Hr ->]].
  2:{ destruct r2 as [q|e|]; [now destruct (Hr q) | |];
        intros [= <- _]; exact Hmk. }
  assert (Hfin : forall d w3,
            w3 = World (<[q := File d]> (tree w1)) (cwd w1) (stdout w1) ->
            cwd w3 = cwd w /\ stdout w3 = stdout w
            /\ exists oq : option (list (list N)),
                 (forall x, oq <> Some x ->
                    tree w3 !! x = tree w !! x
                    \/ (tree w !! x = None /\ tree w3 !! x = Some Dir))
                 /\ (forall q, oq = Some q ->
                       tree w !! q <> Some Dir
                       /\ exists d, tree w3 !! q = Some (File d))).
  { intros d w3 ->. cbn. repeat split; auto. exists (Some q). split.
    - intros x Hx. rewrite lookup_insert_ne by congruence. apply Hd1.
    - intros q' [= <-]. split.
      + intros Hw. destruct (Hd1 q) as [E | [E _]]; congruence.
      + exists d. apply lookup_insert_eq. }
  rewrite bind_unfold. unfold json_dump.
  destruct (write_chunks q (iterencode 0 scene) _) as [w3 r3] eqn:Ew.
  eapply write_chunks_frame in Ew as [d1 ->]; [|apply lookup_insert_eq].
  cbn [tree cwd stdout]. rewrite insert_insert_eq.
  destruct r3 as [[]|e|]; try (intros [= <- _]; now apply (Hfin d1)).
  rewrite bind_unfold.
  destruct (fp_write q (Text [10]) _) as [w4 r4] eqn:Ef.
  eapply fp_write_frame in Ef as [d2 ->]; [|apply lookup_insert_eq].
  cbn [tree cwd stdout]. rewrite insert_insert_eq.
  destruct r4 as [[]|e|]; intros [= <- _]; now apply (Hfin d2).
Qed.

Lemma write_scene_file_shape_le (output_dir : list N) (scene : value)
  (w w' : world) (r : outcome (list N)) :
  write_scene_file output_dir scene w = (w', r) ->
  shape_le (tree w) (tree w').
Proof.
  intros H. apply write_scene_file_frame in H as (_ & _ & oq & H1 & H2).
  intros p n Hp. destruct (decide (oq = Some p)) as [E | E].
  - destruct (H2 _ E) as [Hn (d & ->)]. rewrite Hp in Hn.
    destruct n; [congruence | reflexivity].
  - destruct (H1 _ E) as [-> | [E' _]]; [now rewrite Hp | congruence].
Qed.

(** The loop, whatever its outcome. *)
Lemma write_scenes_frame_any (output_dir : list N) (scenes : list value) :
  forall acc w w' r,
  write_scenes output_dir scenes acc w = (w', r) ->
  cwd w' = cwd w /\ stdout w' = stdout w /\ shape_le (tree w) (tree w').
Proof.
  induction scenes as [|s scenes IH]; intros acc w w' r.
  - intros [= <- _]. auto using shape_le_refl.
  - cbn [write_scenes]. rewrite bind_unfold.
    destruct (write_scene_file output_dir s w) as [w1 r1] eqn:E.
    pose proof (write_scene_file_shape_le _ _ _ _ _ E) as Hs.
    apply write_scene_file_frame in E as (Hc & Ho & _).
    destruct r1 as [p|e|]; try (intros [= <- _]; auto).
    intros H. apply IH in H as (Hc' & Ho' & Hs').
    repeat split; try congruence. eapply shape_le_trans; eauto.
Qed.


Lemma main_outcome (script : list N) (w w' : world) (r : outcome unit) :
  main script w = (w', r) ->
  cwd w' = cwd w /\ shape_le (tree w) (tree w')
  /\ match r with
     | Return _ =>
         exists n, stdout w'
                   = stdout w ++ summary_line n (output_dir_of script) ++ [10]
     | _ => stdout w' = stdout w
     end.
Proof.
  unfold main. rewrite bind_unfold.
  destruct (load_route_json _ w) as [w0 r0] eqn:El.
  apply load_route_json_frame in El as ->.
  destruct r0 as [route|e|];
    try (intros [= <- <-]; auto using shape_le_refl).
  rewrite bind_unfold. unfold lift at 1.
  destruct (py_get route (py "scenes") (VList [])) as [sc|e|];
    try (intros [= <- <-]; auto using shape_le_refl).
  rewrite bind_unfold. unfold lift at 1.
  destruct (py_iter sc) as [items|e|];
    try (intros [= <- <-]; auto using shape_le_refl).
  rewrite bind_unfold.
  destruct (write_scenes _ items [] w) as [w1 r1] eqn:Ew.
  apply write_scenes_frame_any in Ew as (Hc & Ho & Hs).
  destruct r1 as [ps|e|]; try (intros [= <- <-]; now auto).
  intros H. unfold print in H. injection H as <- <-.
  cbn. repeat split; auto. exists (length ps). now rewrite Ho.
Qed.

Lemma outcome_eq {A : Type} (x : world * outcome A) (r : outcome A) :
  snd x = r -> x = (fst x, r).
Proof. destruct x as [w o]. cbn. now intros ->. Qed.

(** X3: whatever the outcome of [main], nothing is lost: every entry of the
    file tree is still there, a directory as a directory and a file as a
    file, and the working directory is the same.  The summary line is
    printed when [main] completes, and nothing is printed when it does
    not. *)
Theorem main_keeps_every_entry (script : list N) (w w' : world)
  (r : outcome unit) :
  main script w = (w', r) ->
  (forall p n, tree w !! p = Some n ->
     exists n', tree w' !! p = Some n' /\ is_file n' = is_file n)
  /\ cwd w' = cwd w
  /\ (r <> Return tt -> stdout w' = stdout w)
  /\ (r = Return tt ->
      exists n, stdout w'
                = stdout w ++ summary_line n (output_dir_of script) ++ [10]).
Proof.
  intros H. apply main_outcome in H as (Hc & Hs & Ho).
  split; [|split; [exact Hc|split]].
  - intros p n Hp. apply Hs in Hp.
    destruct (tree w' !! p) as [n'|]; [|discriminate].
    injection Hp as Hp. eauto.
  - intros Hr. destruct r as [[]|e|]; [now destruct Hr | exact Ho | exact Ho].
  - intros ->. exact Ho.
Qed.



Lemma main_keeps_every_entry_witness :
  let text := js "{'scenes': [{'scene_id': 'a'}, 5, {'scene_id': 'c'}]}" in
  let w := demo_world text in
  let w' := fst (main demo_script w) in
  (forall p n, tree w !! p = Some n ->
     exists n', tree w' !! p = Some n' /\ is_file n' = is_file n)
  /\ cwd w' = cwd w
  /\ (Raise AttributeError <> Return tt -> stdout w' = stdout w)
  /\ (Raise AttributeError = Return tt ->
      exists n, stdout w'
                = stdout w ++ summary_line n (output_dir_of demo_script) ++ [10]).
Proof.
  intros text w w'.
  assert (H : main demo_script w = (w', Raise AttributeError))
    by (unfold w'; apply outcome_eq; vm_compute; reflexivity).
  exact (main_keeps_every_entry demo_script w w' _ H).
Defined.



(** * The working directory *)

Lemma cwd_free_ret {A : Type} (a : A) : cwd_free (mret a).
Proof. intros c w. reflexivity. Qed.

Lemma cwd_free_lift {A : Type} (x : outcome A) : cwd_free (lift x).
Proof. intros c w. reflexivity. Qed.

Lemma cwd_free_known {A : Type} (x : option A) : cwd_free (known x).
Proof. intros c w. reflexivity. Qed.

Lemma cwd_free_bind {A B : Type} (m : M A) (f : A -> M B) :
  cwd_free m -> (forall a, cwd_free (f a)) -> cwd_free (m ≫= f).
Proof.
  intros Hm Hf c w. rewrite !bind_unfold, Hm.
  destruct (m w) as [w1 [a|e|]]; cbn [fst snd]; [apply Hf | reflexivity..].
Qed.

Lemma cwd_free_print (text : list N) : cwd_free (print text).
Proof. intros c w. reflexivity. Qed.

Lemma cwd_free_fp_write (fp : list (list N)) (ch : chunk) :
  cwd_free (fp_write fp ch).
Proof.
  intros c w. unfold fp_write. destruct ch as [s|lit]; [|reflexivity].
  destruct (utf8_encode s); reflexivity.
Qed.

Lemma cwd_free_write_chunks (fp : list (list N)) (cs : list chunk) :
  cwd_free (write_chunks fp cs).
Proof.
  induction cs as [|ch cs IH]; [apply cwd_free_ret|].
  apply cwd_free_bind; [apply cwd_free_fp_write | intros _; exact IH].
Qed.

(** Absolute paths: resolution starts at the root. *)
Lemma os_path_absolute (p b : list N) :
  startswith [47] p = true -> os_path p = Return b -> startswith [47] b = true.
Proof.
  destruct p as [|c p]; [discriminate|]. cbn [startswith].
  rewrite andb_true_r. intros Hc. assert (47 = c) as <- by lia.
  unfold os_path. cbn [fsencode].
  change (if (56448 <=? 47) && (47 <=? 56575) then Some [47 - 56320]
          else utf8_encode_char 47) with (Some [47]).
  destruct (fsencode p) as [bs|]; [|discriminate]. cbn [app].
  destruct (bool_decide _); [discriminate|]. now intros [= <-].
Qed.

Lemma start_dir_absolute (c : list (list N)) (b : list N) :
  startswith [47] b = true -> start_dir c b = [].
Proof. unfold start_dir. now intros ->. Qed.

Lemma resolve_absolute (t : gmap (list (list N)) node) (c c' : list (list N))
  (b : list N) :
  startswith [47] b = true -> resolve t c b = resolve t c' b.
Proof.
  intros H. unfold resolve. destruct b; [reflexivity|].
  now rewrite !(start_dir_absolute _ _ H).
Qed.

Lemma cwd_free_makedirs (name : list N) :
  startswith [47] name = true -> cwd_free (makedirs name).
Proof.
  intros H c w. unfold makedirs.
  destruct (os_path name) as [b|e|] eqn:E; try reflexivity.
  apply (os_path_absolute _ _ H) in E. destruct b as [|x b]; [reflexivity|].
  cbn [cwd tree with_cwd]. rewrite !(start_dir_absolute _ _ E).
  destruct (make_dirs _ _ _) as [t r]. reflexivity.
Qed.

Lemma cwd_free_open_r (path : list N) :
  startswith [47] path = true -> cwd_free (open_r path).
Proof.
  intros H c w. unfold open_r. cbn [fst snd tree cwd with_cwd]. f_equal.
  destruct (os_path path) as [b|e|] eqn:E; try reflexivity.
  apply (os_path_absolute _ _ H) in E. cbn [obind].
  now rewrite (resolve_absolute _ c (cwd w) _ E).
Qed.

Lemma strip_slashes_prefix (b : list N) :
  exists t, b = strip_slashes b ++ t.
Proof.
  unfold strip_slashes.
  assert (H : forall l, exists t, l = t ++ drop_while (N.eqb 47) l).
  { induction l as [|x l (t & E)]; [now exists []|]. cbn [drop_while].
    destruct (47 =? x); [|now exists []].
    exists (x :: t). cbn [app]. congruence. }
  destruct (H (rev b)) as (t & E). exists (rev t).
  rewrite <- rev_app_distr, <- E. now rewrite rev_involutive.
Qed.

Lemma strip_slashes_absolute (b : list N) (x : N) (b' : list N) :
  startswith [47] b = true -> strip_slashes b = x :: b' ->
  startswith [47] (x :: b') = true.
Proof.
  intros H E. destruct (strip_slashes_prefix b) as (t & Et).
  rewrite E in Et. rewrite Et in H. exact H.
Qed.

Lemma cwd_free_open_w (path : list N) :
  startswith [47] path = true -> cwd_free (open_w path).
Proof.
  intros H c w. unfold open_w.
  destruct (os_path path) as [b|e|] eqn:E; try reflexivity.
  apply (os_path_absolute _ _ H) in E.
  cbn [tree cwd stdout with_cwd].
  destruct (bool_decide (last b = Some 47)).
  - destruct (strip_slashes b) as [|x b'] eqn:Es; [reflexivity|].
    pose proof (strip_slashes_absolute _ _ _ E Es) as E'.
    rewrite (resolve_absolute _ c (cwd w) _ E').
    destruct (resolve _ _ _); reflexivity.
  - rewrite (resolve_absolute _ c (cwd w) _ E).
    destruct (resolve _ _ _) as [q|e|]; try reflexivity.
    destruct (fs_lookup (tree w) q) as [[|d]|]; reflexivity.
Qed.

Lemma path_join_absolute (a b : list N) :
  startswith [47] a = true -> startswith [47] (path_join a b) = true.
Proof.
  intros H. unfold path_join. destruct (startswith [47] b) eqn:E; [exact E|].
  destruct a as [|x a]; [discriminate|].
  destruct (_ || _); exact H.
Qed.

Lemma cwd_free_write_scene_file (output_dir : list N) (scene : value) :
  startswith [47] output_dir = true ->
  cwd_free (write_scene_file output_dir scene).
Proof.
  intros H. unfold write_scene_file.
  apply cwd_free_bind; [apply cwd_free_lift|]. intros sid.
  apply cwd_free_bind; [apply cwd_free_known|]. intros b.
  destruct (negb b); [apply cwd_free_ret|].
  apply cwd_free_bind; [now apply cwd_free_makedirs|]. intros _.
  apply cwd_free_bind; [apply cwd_free_known|]. intros name.
  apply cwd_free_bind; [now apply cwd_free_open_w, path_join_absolute|].
  intros out.
  apply cwd_free_bind; [apply cwd_free_write_chunks|]. intros _.
  apply cwd_free_bind; [apply cwd_free_fp_write|]. intros _.
  apply cwd_free_ret.
Qed.

Lemma cwd_free_write_scenes (output_dir : list N) (scenes : list value) :
  startswith [47] output_dir = true ->
  forall acc, cwd_free (write_scenes output_dir scenes acc).
Proof.
  intros H. induction scenes as [|s scenes IH]; intros acc;
    [apply cwd_free_ret|].
  cbn [write_scenes].
  apply cwd_free_bind; [now apply cwd_free_write_scene_file|].
  intros p. apply IH.
Qed.

Lemma drop_while_snoc (f : N -> bool) (l : list N) (x : N) :
  drop_while f (l ++ [x]) = []
  \/ exists l', drop_while f (l ++ [x]) = l' ++ [x].
Proof.
  induction l as [|y l IH]; cbn.
  - destruct (f x); [now left | right; now exists []].
  - destruct (f y); [exact IH|]. right. now exists (y :: l).
Qed.

(** The directory of an absolute path is absolute. *)
Lemma dirname_absolute (p : list N) :
  startswith [47] p = true -> startswith [47] (dirname p) = true.
Proof.
  destruct p as [|c p]; [discriminate|]. cbn [startswith].
  rewrite andb_true_r. intros Hc. assert (47 = c) as <- by lia.
  unfold dirname. cbn [rev].
  assert (Hh : exists l, drop_while (fun c => negb (c =? 47)) (rev p ++ [47])
                         = l ++ [47]).
  { destruct (drop_while_snoc (fun c => negb (c =? 47)) (rev p) 47)
      as [E | E]; [|exact E].
    exfalso. revert E. induction (rev p) as [|y l IH]; cbn; [discriminate|].
    destruct (negb (y =? 47)); [exact IH | discriminate]. }
  destruct Hh as [l ->]. rewrite rev_app_distr. cbn [rev app].
  rewrite rev_involutive.
  destruct (drop_while_snoc (N.eqb 47) l 47) as [-> | [l' ->]].
  - reflexivity.
  - destruct l' as [|y l']; cbn [app]; [reflexivity|].
    rewrite rev_app_distr. reflexivity.
Qed.

Lemma cwd_free_main (script : list N) :
  startswith [47] script = true -> cwd_free (main script).
Proof.
  intros H. unfold main.
  pose proof (dirname_absolute _ (dirname_absolute _ H)) as Hr.
  apply cwd_free_bind.
  { unfold load_route_json.
    apply cwd_free_bind;
      [now apply cwd_free_open_r, path_join_absolute, path_join_absolute|].
    intros data. apply cwd_free_bind; [apply cwd_free_lift|].
    intros text. apply cwd_free_lift. }
  intros route. apply cwd_free_bind; [apply cwd_free_lift|].
  intros sc. apply cwd_free_bind; [apply cwd_free_lift|].
  intros items. apply cwd_free_bind.
  { now apply cwd_free_write_scenes, path_join_absolute, path_join_absolute. }
  intros ps. apply cwd_free_print.
Qed.

(** X6: the script finds its files from its own place: with the absolute
    script path that [os.path.abspath] gives, a run of [main] from another
    working directory does the same to the file tree, prints the same and
    ends the same. *)
Theorem main_from_any_directory (script : list N) (c : list (list N))
  (w w' : world) (r : outcome unit) :
  startswith [47] script = true ->
  main script w = (w', r) ->
  main script (with_cwd c w) = (with_cwd c w', r).
Proof.
  intros H Hm. rewrite (cwd_free_main _ H c w). now rewrite Hm.
Qed.

Lemma main_from_any_directory_witness :
  let text := js "{'scenes': [{'scene_id': 's1', 'text': 'hello'}]}" in
  let w := demo_world text in
  let w' := fst (main demo_script w) in
  main demo_script (with_cwd [py "home"; py "me"] w)
  = (with_cwd [py "home"; py "me"] w', Return tt).
Proof.
  intros text w w'.
  assert (H : startswith [47] demo_script = true) by reflexivity.
  assert (Hm : main demo_script w = (w', Return tt))
    by (unfold w'; apply outcome_eq; vm_compute; reflexivity).
  exact (main_from_any_directory demo_script [py "home"; py "me"] w w' _ H Hm).
Defined.

(** * Every JSON text is loaded *)


































(** * Runs that complete *)

Lemma fsencode_app (a b : list N) :
  fsencode (a ++ b) =
  match fsencode a, fsencode b with
  | Some x, Some y => Some (x ++ y)
  | _, _ => None
  end.
Proof.
  induction a as [|c a IH]; cbn [app fsencode].
  - destruct (fsencode b); reflexivity.
  - rewrite IH.
    set (e := if (56448 <=? c) && (c <=? 56575) then Some [c - 56320]
              else utf8_encode_char c).
    destruct e as [x|], (fsencode a) as [y|], (fsencode b) as [z|];
      try reflexivity.
    now rewrite app_assoc.
Qed.

(** A byte below 128 of an encoded name is a character of the name. *)
Lemma fsencode_ascii (s b : list N) (x : N) :
  fsencode s = Some b -> (x ∈ b) -> x < 128 -> x ∈ s.
Proof.
  revert b. induction s as [|c s IH]; intros b; cbn [fsencode].
  - intros [= <-] H. inversion H.
  - set (e := if (56448 <=? c) && (c <=? 56575) then Some [c - 56320]
              else utf8_encode_char c).
    assert (Hc : forall bc, e = Some bc -> x ∈ bc -> x < 128 -> x = c).
    { subst e. intros bc. destruct ((56448 <=? c) && (c <=? 56575)) eqn:E.
      - intros [= <-] H. apply list_elem_of_singleton in H. lia.
      - unfold utf8_encode_char.
        destruct (c <? 128) eqn:E1.
        { intros [= <-] H. now apply list_elem_of_singleton in H. }
        generalize (c / 64) (c mod 64) (c / 4096) ((c / 64) mod 64)
          (c / 262144) ((c / 4096) mod 64).
        intros n1 n2 n3 n4 n5 n6.
        destruct (c <? 2048) eqn:E2.
        { intros [= <-] H. rewrite !elem_of_cons, elem_of_nil in H. lia. }
        destruct (c <? 65536) eqn:E3.
        { destruct (is_surrogate c); [discriminate|].
          intros [= <-] H. rewrite !elem_of_cons, elem_of_nil in H. lia. }
        destruct (c <? 1114112); [|discriminate].
        intros [= <-] H. rewrite !elem_of_cons, elem_of_nil in H. lia. }
    clearbody e. destruct e as [bc|]; [|discriminate].
    destruct (fsencode s) as [bs|] eqn:Es; [|discriminate].
    intros [= <-] Hx Hlt. apply elem_of_app in Hx as [Hx | Hx].
    + rewrite (Hc bc eq_refl Hx Hlt). left.
    + right. eapply IH; eauto.
Qed.

Lemma os_path_inv (p b : list N) :
  os_path p = Return b -> fsencode p = Some b /\ (0 ∉ b).
Proof.
  unfold os_path. destruct (fsencode p) as [b'|]; [|discriminate].
  destruct (bool_decide (0 ∈ b')) eqn:E; [discriminate|].
  intros [= <-]. split; [reflexivity|]. now apply bool_decide_eq_false in E.
Qed.

Lemma os_path_intro (p b : list N) :
  fsencode p = Some b -> (0 ∉ b) -> os_path p = Return b.
Proof.
  intros E H. unfold os_path. rewrite E. now rewrite bool_decide_eq_false_2.
Qed.

Lemma os_path_app (a b x y : list N) :
  os_path a = Return x -> os_path b = Return y ->
  os_path (a ++ b) = Return (x ++ y).
Proof.
  intros [Ha Hx]%os_path_inv [Hb Hy]%os_path_inv. apply os_path_intro.
  - now rewrite fsencode_app, Ha, Hb.
  - rewrite elem_of_app. tauto.
Qed.

Lemma split_sep_app (a c : list N) :
  split_sep (a ++ 47 :: c) = split_sep a ++ split_sep c.
Proof.
  induction a as [|x a IH]; cbn [app split_sep].
  - reflexivity.
  - rewrite IH. destruct (x =? 47); [reflexivity|].
    destruct (split_sep a) as [|h t] eqn:E; [|reflexivity].
    destruct a; cbn in E; [discriminate|].
    destruct (_ =? 47); [discriminate|]. now destruct (split_sep a).
Qed.

Lemma split_sep_plain (b : list N) : (47 ∉ b) -> split_sep b = [b].
Proof.
  induction b as [|x b IH]; intros H; [reflexivity|]. cbn [split_sep].
  rewrite not_elem_of_cons in H. destruct H as [Hx Hb].
  replace (x =? 47) with false by lia. now rewrite IH.
Qed.

Lemma walk_dirs_app (t : gmap (list (list N)) node) (cs1 cs2 : list (list N)) :
  forall cur,
  walk_dirs t cur (cs1 ++ cs2)
  = obind (walk_dirs t cur cs1) (fun d => walk_dirs t d cs2).
Proof.
  induction cs1 as [|c cs1 IH]; intros cur; cbn [app walk_dirs]; [reflexivity|].
  destruct (str_eqb c [] || str_eqb c [46]); [apply IH|].
  destruct (str_eqb c [46; 46]); [apply IH|].
  destruct (fs_lookup t (cur ++ [c])) as [[|d]|]; [apply IH | reflexivity..].
Qed.

(** Where the directories are there, [makedirs] goes through them and
    makes nothing. *)
Lemma make_dirs_walk (t : gmap (list (list N)) node) (cs cs2 : list (list N)) :
  forall cur d, walk_dirs t cur cs = Return d ->
  make_dirs t cur (cs ++ cs2) = make_dirs t d cs2.
Proof.
  induction cs as [|c cs IH]; intros cur d; cbn [app walk_dirs make_dirs].
  - now intros [= ->].
  - destruct (str_eqb c [] || str_eqb c [46]); [apply IH|].
    destruct (str_eqb c [46; 46]); [apply IH|].
    destruct (fs_lookup t (cur ++ [c])) as [[|x]|]; [apply IH | discriminate..].
Qed.

Lemma split_sep_snoc (b : list N) :
  exists cs c, split_sep b = cs ++ [c].
Proof.
  destruct (split_sep b) as [|h t] eqn:E.
  - destruct b; cbn in E; [discriminate|].
    destruct (_ =? 47); [discriminate|]. now destruct (split_sep b).
  - destruct (exists_last (l := h :: t) ltac:(discriminate)) as (cs & c & ->).
    eauto.
Qed.

(** A path that names a directory that is there: walking all of its
    components leads to it. *)
Lemma resolve_walk (t : gmap (list (list N)) node) (c : list (list N))
  (b : list N) (qd : list (list N)) :
  resolve t c b = Return qd -> fs_lookup t qd = Some Dir ->
  walk_dirs t (start_dir c b) (split_sep b) = Return qd.
Proof.
  unfold resolve. destruct b as [|x b]; [discriminate|].
  destruct (split_sep_snoc (x :: b)) as (cs & lc & ->).
  rewrite removelast_last, last_last, walk_dirs_app.
  destruct (walk_dirs t (start_dir c (x :: b)) cs) as [d|e|]; cbn [obind];
    try discriminate.
  cbn [walk_dirs].
  destruct (str_eqb lc [] || str_eqb lc [46]); [now intros [= ->]|].
  destruct (str_eqb lc [46; 46]); [now intros [= ->]|].
  intros [= <-] ->. reflexivity.
Qed.

Lemma start_dir_app (c : list (list N)) (b b' : list N) :
  b <> [] -> start_dir c (b ++ b') = start_dir c b.
Proof. destruct b; [congruence|]. reflexivity. Qed.

(** The file [name] in the directory a path leads to. *)
Lemma resolve_in_dir (t : gmap (list (list N)) node) (c : list (list N))
  (b bn : list N) (qd : list (list N)) :
  walk_dirs t (start_dir c (b ++ [47])) (split_sep b) = Return qd ->
  (47 ∉ bn) -> bn <> [] -> bn <> [46] -> bn <> [46; 46] ->
  resolve t c (b ++ 47 :: bn) = Return (qd ++ [bn]).
Proof.
  intros Hw Hs H0 H1 H2. unfold resolve.
  assert (Hst : start_dir c (b ++ 47 :: bn) = start_dir c (b ++ [47]))
    by now destruct b.
  destruct (b ++ 47 :: bn) as [|x y] eqn:E;
    [now destruct b|]. rewrite <- E in *. clear E x y.
  rewrite split_sep_app, (split_sep_plain bn Hs), removelast_last, last_last.
  rewrite Hst, Hw. cbn [obind].
  unfold str_eqb. rewrite !bool_decide_eq_false_2 by assumption.
  reflexivity.
Qed.

Lemma os_path_app_inv (a b x : list N) :
  os_path (a ++ b) = Return x ->
  exists xa xb, os_path a = Return xa /\ os_path b = Return xb /\ x = xa ++ xb.
Proof.
  intros [H Hx]%os_path_inv. rewrite fsencode_app in H.
  destruct (fsencode a) as [xa|] eqn:Ea; [|discriminate].
  destruct (fsencode b) as [xb|] eqn:Eb; [|discriminate].
  injection H as <-. rewrite elem_of_app in Hx.
  exists xa, xb. repeat split; auto; apply os_path_intro; auto; tauto.
Qed.

(** The bytes of a scene file name: no slash, and not a name with a
    meaning of its own. *)
Lemma file_name_bytes (name bn : list N) :
  (47 ∉ name) -> os_path (name ++ py ".json") = Return bn ->
  (47 ∉ bn) /\ (5 <= length bn)%nat /\ last bn = Some 110.
Proof.
  intros Hn Hb.
  destruct (os_path_app_inv _ _ _ Hb) as (xa & xb & _ & Hj & ->).
  assert (xb = py ".json") as -> by (vm_compute in Hj; now injection Hj).
  apply os_path_inv in Hb as [Hb _]. repeat split.
  - intros H. apply (fsencode_ascii _ _ _ Hb) in H; [|lia].
    apply elem_of_app in H as [H | H]; [contradiction|].
    apply (bool_decide_eq_true_2 _) in H. vm_compute in H. discriminate.
  - rewrite length_app. vm_compute (length (py ".json")). lia.
  - rewrite last_app. reflexivity.
Qed.

(** Where the directory is there, [makedirs] changes nothing. *)
Lemma makedirs_existing (output_dir : list N) (w : world)
  (qd : list (list N)) :
  file_of w output_dir = Return qd -> fs_lookup (tree w) qd = Some Dir ->
  makedirs output_dir w = (w, Return tt).
Proof.
  unfold file_of, makedirs. intros Hf Hd.
  destruct (os_path output_dir) as [bo| |]; try discriminate. cbn in Hf.
  destruct bo as [|x bo]; [discriminate|].
  pose proof (resolve_walk _ _ _ _ Hf Hd) as Hw.
  rewrite <- (app_nil_r (split_sep (x :: bo))).
  rewrite (make_dirs_walk _ _ _ _ _ Hw). cbn. now destruct w.
Qed.

(** The path of a scene file and the file it names, where the output
    directory is there. *)
Lemma scene_path (output_dir : list N) (t1 : gmap (list (list N)) node)
  (c : list (list N)) (qd : list (list N)) (name bn : list N) :
  obind (os_path output_dir) (resolve t1 c) = Return qd ->
  fs_lookup t1 qd = Some Dir ->
  name <> [] -> (47 ∉ name) -> os_path (name ++ py ".json") = Return bn ->
  exists b,
    os_path (path_join output_dir (name ++ py ".json")) = Return b
    /\ last b <> Some 47
    /\ resolve t1 c b = Return (qd ++ [bn]).
Proof.
  intros Hf Hd Hne Hn Hb.
  destruct (file_name_bytes _ _ Hn Hb) as (Hslash & Hlen & Hlast).
  destruct (os_path output_dir) as [bo| |] eqn:Eo; try discriminate.
  cbn [obind] in Hf.
  assert (Hbo : bo <> []) by (intros ->; discriminate).
  pose proof (resolve_walk _ _ _ _ Hf Hd) as Hw.
  assert (Hp : exists a ba,
            path_join output_dir (name ++ py ".json")
            = a ++ 47 :: name ++ py ".json"
            /\ os_path a = Return ba
            /\ walk_dirs t1 (start_dir c (ba ++ [47])) (split_sep ba)
               = Return qd).
  { unfold path_join.
    assert (startswith [47] (name ++ py ".json") = false) as ->.
    { destruct name as [|x name]; [congruence|]. apply startswith_head.
      intros <-. apply Hn. left. }
    assert (output_dir <> []) by (intros ->; vm_compute in Eo; congruence).
    rewrite bool_decide_eq_false_2 by assumption. cbn [orb].
    destruct (bool_decide (last output_dir = Some 47)) eqn:El.
    - apply bool_decide_eq_true in El.
      apply last_Some in El as [a ->].
      destruct (os_path_app_inv _ _ _ Eo) as (ba & x & Ha & Hx & ->).
      assert (x = [47]) as -> by (vm_compute in Hx; now injection Hx).
      exists a, ba. split; [now rewrite <- app_assoc|]. split; [exact Ha|].
      change (ba ++ [47]) with (ba ++ 47 :: []) in Hw.
      rewrite split_sep_app, walk_dirs_app in Hw.
      destruct (walk_dirs t1 _ (split_sep ba)) as [d0| |]; try discriminate.
      cbn in Hw. now injection Hw as ->.
    - exists output_dir, bo. repeat split; auto.
      now rewrite (start_dir_app _ _ _ Hbo). }
  destruct Hp as (a & ba & Hp & Ha & Hwa).
  exists (ba ++ 47 :: bn). repeat split.
  - rewrite Hp. apply (os_path_app a (47 :: name ++ py ".json") ba (47 :: bn));
      [exact Ha|].
    apply (os_path_app [47] (name ++ py ".json") [47] bn); [reflexivity | exact Hb].
  - rewrite last_app, last_cons, Hlast. discriminate.
  - apply resolve_in_dir; auto.
    + intros ->. cbn in Hlen. lia.
    + intros ->. cbn in Hlen. lia.
    + intros ->. cbn in Hlen. lia.
Qed.

(** One scene written, given what [makedirs] did. *)
Lemma write_step (output_dir : list N) (d : list (list N * value))
  (w : world) (t1 : gmap (list (list N)) node) (qd : list (list N))
  (name bn bs : list N) :
  makedirs output_dir w = (World t1 (cwd w) (stdout w), Return tt) ->
  file_of (World t1 (cwd w) (stdout w)) output_dir = Return qd ->
  fs_lookup t1 qd = Some Dir ->
  truthy (scene_id d) = Some true -> py_str (scene_id d) = Some name ->
  (47 ∉ name) -> os_path (name ++ py ".json") = Return bn ->
  t1 !! (qd ++ [bn]) <> Some Dir ->
  no_float (VDict d) = true ->
  utf8_encode (scene_text (VDict d)) = Some bs ->
  write_scene_file output_dir (VDict d) w
  = (World (<[qd ++ [bn] := File bs]> t1) (cwd w) (stdout w),
     Return (path_join output_dir (name ++ py ".json"))).
Proof.
  intros Hm Hf Hd Ht Hs Hn Hb Hk Hfl He.
  pose proof (truthy_str_nonempty _ _ Ht Hs) as Hne.
  destruct (scene_path _ _ _ _ _ _ Hf Hd Hne Hn Hb) as (b & Hp & Hl & Hr).
  apply write_scene_file_written with (q := qd ++ [bn]).
  exists d, name, t1, b, bs. repeat split; auto.
  - now rewrite fs_lookup_snoc.
  - now rewrite iterencode_pretty, Hfl.
Qed.



Lemma output_dir_of_split (script : list N) :
  exists x, output_dir_of script = x ++ 47 :: py "route_gu_wan_scenes".
Proof.
  unfold output_dir_of.
  set (inner := path_join (dirname (dirname script)) (py "data")).
  assert (Hi : inner <> [] /\ last inner <> Some 47).
  { subst inner. unfold path_join.
    change (startswith [47] (py "data")) with false. cbv iota.
    destruct (_ || _).
    - split; [intros [_ H]%app_eq_nil; discriminate|].
      rewrite last_app. discriminate.
    - split; [intros [_ H]%app_eq_nil; discriminate|].
      rewrite last_app. discriminate. }
  destruct Hi as [H1 H2]. exists inner. unfold path_join.
  change (startswith [47] (py "route_gu_wan_scenes")) with false. cbv iota.
  now rewrite !bool_decide_eq_false_2 by assumption.
Qed.

Lemma shape_le_insert_new (t : gmap (list (list N)) node)
  (q : list (list N)) (n : node) :
  t !! q = None -> shape_le t (<[q := n]> t).
Proof.
  intros Hq p m Hp. rewrite lookup_insert_ne by congruence. now rewrite Hp.
Qed.

(** [makedirs] on the output directory of [main]: it is made if it is not
    there, when its parent is there and no file has its name. *)
Lemma makedirs_output (script : list N) (w : world) (qd : list (list N)) :
  file_of w (output_dir_of script) = Return qd ->
  (forall data, fs_lookup (tree w) qd <> Some (File data)) ->
  exists t1,
    makedirs (output_dir_of script) w
    = (World t1 (cwd w) (stdout w), Return tt)
    /\ fs_lookup t1 qd = Some Dir
    /\ file_of (World t1 (cwd w) (stdout w)) (output_dir_of script) = Return qd
    /\ forall k, k <> qd -> t1 !! k = tree w !! k.
Proof.
  intros Hf Hnf.
  destruct (fs_lookup (tree w) qd) as [[|data]|] eqn:Eq.
  - exists (tree w). rewrite (makedirs_existing _ _ _ Hf Eq).
    destruct w as [t c o]. cbn. auto.
  - now destruct (Hnf data).
  - destruct (output_dir_of_split script) as [x Hx].
    unfold file_of, makedirs in *. rewrite Hx in *.
    destruct (os_path (x ++ 47 :: py "route_gu_wan_scenes")) as [bo| |] eqn:Eo;
      try discriminate.
    cbn [obind] in Hf.
    destruct (os_path_app_inv x (47 :: py "route_gu_wan_scenes") bo Eo)
      as (bx & bl & Hbx & Hbl & ->).
    assert (bl = 47 :: py "route_gu_wan_scenes") as ->
      by (vm_compute in Hbl; now injection Hbl).
    assert (Hsp : split_sep (bx ++ 47 :: py "route_gu_wan_scenes")
                  = split_sep bx ++ [py "route_gu_wan_scenes"]).
    { rewrite split_sep_app. f_equal. }
    pose proof Hf as Hf0. unfold resolve in Hf.
    destruct (bx ++ 47 :: py "route_gu_wan_scenes") as [|y bo] eqn:Ebo;
      [now destruct bx|].
    rewrite Hsp, removelast_last, last_last in Hf.
    destruct (walk_dirs (tree w) (start_dir (cwd w) (y :: bo)) (split_sep bx))
      as [d0| |] eqn:Ew; try discriminate.
    cbn [obind] in Hf.
    change (str_eqb (py "route_gu_wan_scenes") [] 
            || str_eqb (py "route_gu_wan_scenes") [46]) with false in Hf.
    change (str_eqb (py "route_gu_wan_scenes") [46; 46]) with false in Hf.
    cbv iota in Hf. injection Hf as <-.
    rewrite fs_lookup_snoc in Eq.
    exists (<[d0 ++ [py "route_gu_wan_scenes"] := Dir]> (tree w)).
    rewrite Hsp, (make_dirs_walk _ _ _ _ _ Ew). cbn [make_dirs].
    change (str_eqb (py "route_gu_wan_scenes") []
            || str_eqb (py "route_gu_wan_scenes") [46]) with false.
    change (str_eqb (py "route_gu_wan_scenes") [46; 46]) with false.
    cbv iota. rewrite fs_lookup_snoc, Eq.
    split; [reflexivity|]. split; [|split].
    + rewrite fs_lookup_snoc. apply lookup_insert_eq.
    + cbn [tree cwd obind].
      eapply resolve_shape_le; [apply shape_le_insert_new, Eq | exact Hf0].
    + intros k Hk. now rewrite lookup_insert_ne.
Qed.

Lemma snoc_ne (q : list (list N)) (c : list N) : q ++ [c] <> q.
Proof.
  intros H. apply (f_equal length) in H. rewrite length_app in H. cbn in H. lia.
Qed.

(** The loop completes when every scene can be written, and changes the
    tree in the output directory only. *)
Lemma write_scenes_completes (script : list N) (qd : list (list N))
  (scenes : list value) :
  forall acc w,
  file_of w (output_dir_of script) = Return qd ->
  (forall data, fs_lookup (tree w) qd <> Some (File data)) ->
  Forall (writable (tree w) qd) scenes ->
  exists w' ps,
    write_scenes (output_dir_of script) scenes acc w = (w', Return ps)
    /\ forall k, tree w' !! k <> tree w !! k ->
                 k = qd \/ exists c, k = qd ++ [c].
Proof.
  induction scenes as [|scene scenes IH]; intros acc w Hf Hnf Hall.
  { exists w, acc. split; [reflexivity | congruence]. }
  apply Forall_cons in Hall as [(d & -> & Hs) Hall]. cbn [write_scenes].
  destruct Hs as [Hs | (name & bn & bs & Ht & Hn & Hsl & Hb & Hk & Hfl & He)].
  - erewrite bind_return by (apply skip_return; exact Hs).
    now apply IH.
  - destruct (makedirs_output _ _ _ Hf Hnf) as (t1 & Hm & Hd & Hf1 & Hsame).
    assert (Hk1 : t1 !! (qd ++ [bn]) <> Some Dir)
      by (rewrite Hsame; [exact Hk | apply snoc_ne]).
    erewrite bind_return
      by (eapply write_step; [exact Hm | exact Hf1 | exact Hd | eauto..]).
    set (w1 := World (<[qd ++ [bn] := File bs]> t1) (cwd w) (stdout w)).
    assert (H1 : file_of w1 (output_dir_of script) = Return qd).
    { eapply (file_of_shape_le (World t1 (cwd w) (stdout w))); eauto.
      cbn [tree]. now apply shape_le_insert_file. }
    assert (H2 : forall data, fs_lookup (tree w1) qd <> Some (File data)).
    { intros data. cbn [tree w1]. destruct qd as [|c qd]; [discriminate|].
      cbn [fs_lookup] in *.
      rewrite lookup_insert_ne by apply snoc_ne. rewrite Hd. discriminate. }
    assert (H3 : Forall (writable (tree w1) qd) scenes).
    { eapply Forall_impl; [exact Hall|]. intros s (d' & -> & Hs').
      exists d'. split; [reflexivity|].
      destruct Hs' as [Hs' | (name' & bn' & bs' & G1 & G2 & G3 & G4 & G5 & G6)];
        [now left | right].
      exists name', bn', bs'. repeat split; try tauto. cbn [tree w1].
      destruct (decide (qd ++ [bn'] = qd ++ [bn])) as [-> | Hne].
      * rewrite lookup_insert_eq. discriminate.
      * rewrite lookup_insert_ne by congruence.
        rewrite Hsame by apply snoc_ne. tauto. }
    match goal with
    | |- context [write_scenes _ _ ?a w1] =>
        destruct (IH a w1 H1 H2 H3) as (w' & ps & Hw & Hch)
    end.
    exists w', ps. split; [exact Hw|]. intros k Hk'.
    destruct (decide (tree w' !! k = tree w1 !! k)) as [E | E];
      [|now apply Hch].
    rewrite E in Hk'. cbn [tree w1] in Hk'.
    destruct (decide (k = qd ++ [bn])) as [-> | Hq]; [eauto|].
    rewrite lookup_insert_ne in Hk' by congruence.
    destruct (decide (k = qd)) as [-> | Hq']; [now left|].
    now rewrite Hsame in Hk'.
Qed.


(** X10: ids without a slash keep the files in the output directory: on
    such an input, whatever [main] changes in the file tree is the output
    directory itself or an entry directly in it. *)
Theorem plain_ids_stay_in_output_dir (script : list N) (w w' : world)
  (route : value) (scenes : list value) (qd : list (list N))
  (r : outcome unit) :
  load_route_json (route_path_of script) w = (w, Return route) ->
  route_scenes route = Return scenes ->
  file_of w (output_dir_of script) = Return qd ->
  (forall data, fs_lookup (tree w) qd <> Some (File data)) ->
  Forall (writable (tree w) qd) scenes ->
  main script w = (w', r) ->
  forall k, tree w' !! k <> tree w !! k -> k = qd \/ exists c, k = qd ++ [c].
Proof.
  intros Hl Hr Hf Hnf Hall Hm.
  destruct (write_scenes_completes script qd scenes [] w Hf Hnf Hall)
    as (w1 & ps & Hw & Hch).
  rewrite (main_return _ _ _ _ _ _ Hl Hr Hw) in Hm. injection Hm as <- _.
  exact Hch.
Qed.


Lemma plain_ids_stay_in_output_dir_witness :
  let text := js "{'scenes': [{'scene_id': '..'}, {'scene_id': 's1'}]}" in
  let w := demo_world text in
  let w' := fst (main demo_script w) in
  let qd := [py "proj"; py "data"; py "route_gu_wan_scenes"] in
  main demo_script w = (w', Return tt)
  /\ forall k, tree w' !! k <> tree w !! k -> k = qd \/ exists c, k = qd ++ [c].
Proof.
  intros text w w' qd.
  assert (Hl : load_route_json (route_path_of demo_script) w
               = (w, Return (VDict [(py "scenes",
                    VList [VDict [(py "scene_id", VStr (py ".."))];
                           VDict [(py "scene_id", VStr (py "s1"))]])])))
    by (vm_compute; reflexivity).
  assert (Hf : file_of w (output_dir_of demo_script) = Return qd)
    by (vm_compute; reflexivity).
  assert (Hnf : forall data, fs_lookup (tree w) qd <> Some (File data))
    by (intros data; vm_compute; discriminate).
  assert (Hno : (47 ∉ py "..") /\ (47 ∉ py "s1")).
  { split; intros H; apply (bool_decide_eq_true_2 _) in H; vm_compute in H;
      discriminate. }
  assert (Hall : Forall (writable (tree w) qd)
                   [VDict [(py "scene_id", VStr (py ".."))];
                    VDict [(py "scene_id", VStr (py "s1"))]]).
  { repeat apply Forall_cons_2; [| |apply Forall_nil_2].
    - eexists. split; [reflexivity|]. right.
      exists (py ".."), (py "...json"),
        (default [] (utf8_encode (scene_text
           (VDict [(py "scene_id", VStr (py ".."))])))).
      repeat split; try reflexivity; [apply Hno | vm_compute; discriminate].
    - eexists. split; [reflexivity|]. right.
      exists (py "s1"), (py "s1.json"),
        (default [] (utf8_encode (scene_text
           (VDict [(py "scene_id", VStr (py "s1"))])))).
      repeat split; try reflexivity; [apply Hno | vm_compute; discriminate]. }
  assert (Hm : main demo_script w = (w', Return tt))
    by (unfold w'; apply outcome_eq; vm_compute; reflexivity).
  split; [exact Hm|].
  exact (plain_ids_stay_in_output_dir demo_script w w' _ _ qd _
           Hl eq_refl Hf Hnf Hall Hm).
Defined.




(** X12: scenes that are skipped count for nothing: on a list of objects
    whose ids have a truth value, the loop does the same, whatever its
    outcome, as on the list without the objects it skips. *)
Theorem skipped_scenes_can_go (output_dir : list N) (scenes : list value)
  (acc : list (list N)) (w : world) :
  Forall (fun s => exists d, s = VDict d /\ truthy (scene_id d) <> None)
    scenes ->
  write_scenes output_dir scenes acc w
  = write_scenes output_dir (List.filter has_id scenes) acc w.
Proof.
  intros H. revert acc w.
  induction H as [|s scenes (d & -> & Hd) _ IH]; intros acc w; [reflexivity|].
  cbn [List.filter has_id].
  destruct (truthy (scene_id d)) as [[]|] eqn:Et; [| |congruence].
  - rewrite bool_decide_eq_true_2 by reflexivity. cbn [write_scenes].
    rewrite !bind_unfold.
    destruct (write_scene_file output_dir (VDict d) w) as [w1 [p| |]];
      [apply IH | reflexivity..].
  - rewrite bool_decide_eq_false_2 by discriminate. cbn [write_scenes].
    erewrite bind_return by (apply skip_return; exact Et).
    rewrite bool_decide_eq_true_2 by reflexivity. apply IH.
Qed.

Lemma skipped_scenes_can_go_witness :
  let a := VDict [(py "scene_id", VStr (py "a"))] in
  let skip1 := VDict [(py "text", VStr (py "no id"))] in
  let skip2 := VDict [(py "scene_id", VStr [])] in
  let w := World (<[[py "out"] := Dir]> ∅) [] [] in
  write_scenes (py "out") [skip1; a; skip2] [] w
  = write_scenes (py "out") [a] [] w.
Proof.
  intros a skip1 skip2 w.
  assert (H : Forall (fun s => exists d, s = VDict d
                                         /\ truthy (scene_id d) <> None)
                [skip1; a; skip2]).
  { repeat apply Forall_cons_2; [| | |apply Forall_nil_2];
      (eexists; split; [reflexivity | discriminate]). }
  exact (skipped_scenes_can_go (py "out") [skip1; a; skip2] [] w H).
Defined.

(** * What is loaded is a Python value *)












(** * Running [main] again *)





